(** * nodejs-service-template: logging pipeline and HTTP logging middlewares

    A shallow embedding of the service template's logger construction
    ([src/utils/logger.ts]), its HTTP logging middlewares
    ([src/middlewares/httpLogger.ts]) and the configuration loader
    ([config/index.js]), followed by the properties proved about them.

    Conventions.
    - A JavaScript string is a [string]: a sequence of code units below 256.
    - A JavaScript number that the code only compares or prints (status codes,
      milliseconds) is a [Z].
    - [winston], [logform], [morgan] and the Node runtime are libraries, not
      part of the sources; the few behaviours of theirs that the code relies
      on are written out in the modules [Winston] and [Morgan] below. *)

From Stdlib Require Import String Ascii ZArith List Bool Lia DecimalString
  DecimalNat.
From Stdlib Require DecimalPos DecimalZ DecimalFacts.
Import ListNotations.

Set Warnings "-register-all".

Local Open Scope string_scope.
Local Open Scope Z_scope.

(* ================================================================== *)
(** ** JavaScript strings *)
(* ================================================================== *)

Module JS.

(** [s.startsWith(p)] *)
Fixpoint startsWith (s p : string) {struct p} : bool :=
  match p with
  | EmptyString => true
  | String c p' =>
      match s with
      | EmptyString => false
      | String d s' => if Ascii.eqb c d then startsWith s' p' else false
      end
  end.

(** [s.includes(p)] *)
Fixpoint includes (s p : string) : bool :=
  startsWith s p ||
  match s with
  | EmptyString => false
  | String _ s' => includes s' p
  end.

(** White space in the sense of [String.prototype.trim], for code units below
    256: TAB, LF, VT, FF, CR, SP and NBSP. *)
Definition isWhiteSpace (c : ascii) : bool :=
  let n := nat_of_ascii c in
  (Nat.leb 9 n && Nat.leb n 13) || Nat.eqb n 32 || Nat.eqb n 160.

(** [s.trimStart()] *)
Fixpoint trimStart (s : string) : string :=
  match s with
  | EmptyString => EmptyString
  | String c s' => if isWhiteSpace c then trimStart s' else s
  end.

(** [s.trimEnd()] *)
Fixpoint trimEnd (s : string) : string :=
  match s with
  | EmptyString => EmptyString
  | String c s' =>
      match trimEnd s' with
      | EmptyString => if isWhiteSpace c then EmptyString else String c EmptyString
      | t => String c t
      end
  end.

(** [s.trim()] removes white space at both ends. *)
Definition trim (s : string) : string := trimEnd (trimStart s).

(** [c.toLowerCase()] on one code unit below 256: the capitals A-Z and the
    Latin-1 capitals (192 to 222, the multiplication sign 215 apart) move up
    by 32. *)
Definition lowerChar (c : ascii) : ascii :=
  let n := nat_of_ascii c in
  if (Nat.leb 65 n && Nat.leb n 90)
     || (Nat.leb 192 n && Nat.leb n 222 && negb (Nat.eqb n 215))
  then ascii_of_nat (n + 32) else c.

(** [s.toLowerCase()] *)
Fixpoint toLowerCase (s : string) : string :=
  match s with
  | EmptyString => EmptyString
  | String c s' => String (lowerChar c) (toLowerCase s')
  end.

(** Every code unit of [s] is white space. *)
Fixpoint allWhiteSpace (s : string) : bool :=
  match s with
  | EmptyString => true
  | String c s' => isWhiteSpace c && allWhiteSpace s'
  end.

(** First and last code unit of a string. *)
Definition first (s : string) : option ascii :=
  match s with
  | EmptyString => None
  | String c _ => Some c
  end.

Fixpoint last (s : string) : option ascii :=
  match s with
  | EmptyString => None
  | String c EmptyString => Some c
  | String _ s' => last s'
  end.

End JS.

(* ================================================================== *)
(** ** JavaScript values and objects *)
(* ================================================================== *)

Module Obj.

(** The values that travel through the logger: JSON-like data plus
    [undefined]. An object keeps its properties in insertion order. *)
Inductive value : Type :=
| VUndefined
| VNull
| VBool (b : bool)
| VNum (n : Z)
| VStr (s : string)
| VArr (xs : list value)
| VObj (fields : list (string * value)).

Definition obj := list (string * value).

(** [o[k]] when [k] is an own property. *)
Fixpoint get (k : string) (o : obj) : option value :=
  match o with
  | [] => None
  | (k', v) :: o' => if String.eqb k k' then Some v else get k o'
  end.

(** [o.k]: a missing property reads as [undefined]. *)
Definition prop (k : string) (o : obj) : value :=
  match get k o with
  | Some v => v
  | None => VUndefined
  end.

(** [o[k] = v]: an existing property keeps its place, a new one goes last. *)
Fixpoint set (k : string) (v : value) (o : obj) : obj :=
  match o with
  | [] => [(k, v)]
  | (k', v') :: o' =>
      if String.eqb k k' then (k, v) :: o' else (k', v') :: set k v o'
  end.

Definition mem (k : string) (ks : list string) : bool :=
  existsb (String.eqb k) ks.

(** The rest of a destructuring [{ k1, ..., kn, ...rest }]. *)
Definition omit (ks : list string) (o : obj) : obj :=
  filter (fun kv => negb (mem (fst kv) ks)) o.

(** [Object.keys(o)] *)
Definition keys (o : obj) : list string := map fst o.

(** JavaScript truthiness, as used by [||] and [if]. *)
Definition truthy (v : value) : bool :=
  match v with
  | VUndefined | VNull => false
  | VBool b => b
  | VNum n => negb (n =? 0)
  | VStr s => negb (String.eqb s "")
  | VArr _ | VObj _ => true
  end.

Definition ofZ (n : Z) : string := NilZero.string_of_int (Z.to_int n).

(** The string a value becomes inside a template literal. *)
Fixpoint toString (v : value) : string :=
  match v with
  | VUndefined => "undefined"
  | VNull => "null"
  | VBool true => "true"
  | VBool false => "false"
  | VNum n => ofZ n
  | VStr s => s
  | VArr xs =>
      let elem x :=
        match x with
        | VUndefined | VNull => ""
        | _ => toString x
        end in
      (fix join (l : list value) : string :=
         match l with
         | [] => ""
         | [x] => elem x
         | x :: l' => elem x ++ "," ++ join l'
         end) xs
  | VObj _ => "[object Object]"
  end.

Definition LF : string := String (ascii_of_nat 10) "".
Definition TAB : string := String (ascii_of_nat 9) "".
Definition ESC : string := String (ascii_of_nat 27) "".

End Obj.

(* ================================================================== *)
(** ** The logger as seen by its callers *)
(* ================================================================== *)

Module Log.
Import Obj.

(** [winston.config.npm.levels], the level set the logger is created with. *)
Inductive Level : Type :=
| error | warn | info | http | verbose | debug | silly.

Definition levelName (l : Level) : string :=
  match l with
  | error => "error"
  | warn => "warn"
  | info => "info"
  | http => "http"
  | verbose => "verbose"
  | debug => "debug"
  | silly => "silly"
  end.

(** One call [logger.<level>(message)] or [logger.<level>(message, meta)]. *)
Record LogCall : Type := mkLogCall {
  lc_level : Level;
  lc_message : string;
  lc_meta : option obj
}.

End Log.

(* ================================================================== *)
(** ** The world the middlewares run in *)
(* ================================================================== *)

Module World.
Import Obj Log.

(** Objects are handled by reference. *)
Definition loc := nat.

(** The parts of an Express request that the middlewares read. *)
Record Request : Type := mkRequest {
  method : string;
  url : string;
  headers : value;
  query : value;
  body : value;
  ip : value
}.

(** The parts of an [Error] that the middlewares read. *)
Record ErrorObj : Type := mkErrorObj {
  err_message : value;
  err_stack : value;
  err_name : value
}.

(** A function stored in [res.end]: either one that the middlewares did not
    write (numbered, with its behaviour given from outside), or the closure
    that [detailedHttpLogger] builds, with the variables it captures. *)
Inductive EndFn : Type :=
| ExternEnd (id : nat)
| DetailedEnd (startTime : Z) (req res : loc) (originalEnd : EndFn).

(** The parts of an Express response that the middlewares read or write. *)
Record Response : Type := mkResponse {
  statusCode : Z;
  getHeaders : value;
  end_ : EndFn
}.

Record world : Type := mkWorld {
  emitted : list LogCall;          (* calls received by the logger, oldest first *)
  requests : loc -> Request;
  responses : loc -> Response;
  errors : loc -> ErrorObj;
  clock : Z                         (* what [Date.now()] returns *)
}.

(** Computations that read and change the world. *)
Definition M (A : Type) : Type := world -> A * world.

Definition ret {A} (a : A) : M A := fun w => (a, w).

Definition bind {A B} (m : M A) (k : A -> M B) : M B :=
  fun w => let (a, w') := m w in k a w'.

Definition gets {A} (f : world -> A) : M A := fun w => (f w, w).

Definition modify (f : world -> world) : M unit := fun w => (tt, f w).

Definition exec {A} (m : M A) (w : world) : world := snd (m w).

Definition setEnd (f : EndFn) (r : Response) : Response :=
  {| statusCode := statusCode r; getHeaders := getHeaders r; end_ := f |}.

(** [res.end = f] *)
Definition assignEnd (res : loc) (f : EndFn) (w : world) : world :=
  {| emitted := emitted w;
     requests := requests w;
     responses := fun l => if Nat.eqb l res then setEnd f (responses w l)
                           else responses w l;
     errors := errors w;
     clock := clock w |}.

(** The logger receives one call. *)
Definition emit (c : LogCall) (w : world) : world :=
  {| emitted := emitted w ++ [c];
     requests := requests w;
     responses := responses w;
     errors := errors w;
     clock := clock w |}.

End World.

Declare Scope world_scope.
Delimit Scope world_scope with world.
Notation "x <- c ;; k" := (World.bind c (fun x => k))
  (at level 61, c at next level, right associativity) : world_scope.
Notation "c ;;; k" := (World.bind c (fun _ => k))
  (at level 61, right associativity) : world_scope.

(* ================================================================== *)
(** ** What the code relies on from winston and logform *)
(* ================================================================== *)

Module Winston.
Import Obj Log.

(** [winston.config.npm.levels]: a smaller number is more severe. *)
Definition levels (l : Level) : Z :=
  match l with
  | error => 0
  | warn => 1
  | info => 2
  | http => 3
  | verbose => 4
  | debug => 5
  | silly => 6
  end.

Definition allLevels : list Level :=
  [error; warn; info; http; verbose; debug; silly].

(** [levels[name]] for a name read from the configuration: [None] stands for
    [undefined], the value of a name outside the table (such as [silent]). *)
Definition levelOfName (name : string) : option Z :=
  option_map levels (find (fun l => String.eqb (levelName l) name) allLevels).

(** The runtime's JSON functions: [JSON.stringify(v, null, indent)],
    [JSON.parse] ([None] when it throws), and the stringifier that logform's
    [json()] format calls. *)
Class Json : Type := {
  stringify : nat -> value -> string;
  parse : string -> option value;
  stableStringify : value -> string
}.

(** A wall-clock reading, as [new Date()] gives it in local time. *)
Record DateTime : Type := mkDateTime {
  year : nat;
  month : nat;      (* 1 to 12 *)
  day : nat;
  hours : nat;
  minutes : nat;
  seconds : nat
}.

Definition ofNat (n : nat) : string := NilZero.string_of_uint (Nat.to_uint n).

(** fecha's [pad]: zeros on the left up to [len] characters. *)
Definition pad (n : nat) (len : nat) : string :=
  let s := ofNat n in
  (fix zeros (k : nat) : string :=
     match k with
     | O => s
     | S k' => String "0" (zeros k')
     end) (len - String.length s)%nat.

(** [fecha.format(d, mask)] for masks made of the tokens [YYYY], [MM], [DD],
    [HH], [mm], [ss] and separators; any other character is copied. [skip]
    counts the characters of a token still to be passed over. *)
Fixpoint fechaFrom (d : DateTime) (skip : nat) (mask : string) : string :=
  match mask with
  | EmptyString => EmptyString
  | String c rest =>
      match skip with
      | S k => fechaFrom d k rest
      | O =>
          if JS.startsWith mask "YYYY" then pad (year d) 4 ++ fechaFrom d 3 rest
          else if JS.startsWith mask "MM" then pad (month d) 2 ++ fechaFrom d 1 rest
          else if JS.startsWith mask "DD" then pad (day d) 2 ++ fechaFrom d 1 rest
          else if JS.startsWith mask "HH" then pad (hours d) 2 ++ fechaFrom d 1 rest
          else if JS.startsWith mask "mm" then pad (minutes d) 2 ++ fechaFrom d 1 rest
          else if JS.startsWith mask "ss" then pad (seconds d) 2 ++ fechaFrom d 1 rest
          else String c (fechaFrom d 0 rest)
      end
  end.

Definition fechaFormat (d : DateTime) (mask : string) : string :=
  fechaFrom d 0 mask.

(** What a format can read besides the info: the clock, and whether the
    colors package has colors switched on. logform switches them on when it
    loads [colorize], so the running logger has [ctx_colors = true]; the
    other value shows the line without the color codes. *)
Record Ctx : Type := mkCtx {
  ctx_now : DateTime;
  ctx_colors : bool
}.

(** An info object: its string-keyed properties and the two symbol-keyed ones
    that formats and transports use. *)
Record Info : Type := mkInfo {
  props : obj;
  LEVEL : Level;
  MESSAGE : option string
}.

Definition Format : Type := Ctx -> Info -> Info.

Definition setProp (k : string) (v : value) (i : Info) : Info :=
  {| props := set k v (props i); LEVEL := LEVEL i; MESSAGE := MESSAGE i |}.

Definition setMESSAGE (m : string) (i : Info) : Info :=
  {| props := props i; LEVEL := LEVEL i; MESSAGE := Some m |}.

(** [timestamp({ format })]: [info.timestamp = fecha.format(new Date(), format)],
    whatever [info.timestamp] was. *)
Definition timestamp (format : string) : Format :=
  fun ctx i => setProp "timestamp" (VStr (fechaFormat (ctx_now ctx) format)) i.

(** [errors({ stack: true })] rewrites an info that is an [Error] instance or
    whose message is one. The values of this model hold no [Error] instance,
    so every info passes through as it is. *)
Definition errors : Format := fun _ i => i.

(** [json()]: [info[MESSAGE] = stringify(info)] over the string-keyed
    properties. *)
Definition json {J : Json} : Format :=
  fun _ i => setMESSAGE (stableStringify (VObj (props i))) i.

(** The SGR code of the color that the npm color table gives each level. *)
Definition colorCode (l : Level) : string :=
  match l with
  | error => "31"       (* red *)
  | warn => "33"        (* yellow *)
  | info => "32"        (* green *)
  | http => "32"        (* green *)
  | verbose => "36"     (* cyan *)
  | debug => "34"       (* blue *)
  | silly => "35"       (* magenta *)
  end.

Definition paint (on : bool) (l : Level) (text : string) : string :=
  if on then ESC ++ "[" ++ colorCode l ++ "m" ++ text ++ ESC ++ "[39m"
  else text.

(** [colorize()] with no option: [info.level] is painted in the color of
    [info[LEVEL]]. *)
Definition colorize : Format :=
  fun ctx i =>
    setProp "level"
      (VStr (paint (ctx_colors ctx) (LEVEL i) (toString (prop "level" (props i))))) i.

(** [align()]: a tab in front of the message. *)
Definition align : Format :=
  fun _ i => setProp "message" (VStr (TAB ++ toString (prop "message" (props i)))) i.

(** [printf(template)]: [info[MESSAGE] = template(info)]. *)
Definition printf (template : obj -> string) : Format :=
  fun _ i => setMESSAGE (template (props i)) i.

(** [combine(f1, ..., fn)]: the formats one after the other. *)
Definition combine (fs : list Format) : Format :=
  fun ctx i => fold_left (fun acc f => f ctx acc) fs i.

(** The transports the logger is built from. *)
Inductive Transport : Type :=
| Console (format : Format) (level : option string)
| DailyRotateFile (filename datePattern maxSize maxFiles : string)
    (format : Format) (level : option string).

Definition transportFormat (t : Transport) : Format :=
  match t with
  | Console f _ => f
  | DailyRotateFile _ _ _ _ f _ => f
  end.

Definition transportLevel (t : Transport) : option string :=
  match t with
  | Console _ l => l
  | DailyRotateFile _ _ _ _ _ l => l
  end.

Definition transportFile (t : Transport) : option string :=
  match t with
  | Console _ _ => None
  | DailyRotateFile f _ _ _ _ _ => Some f
  end.

(** A logger: what [winston.createLogger] was given, and the transports
    handed to [logger.exceptions.handle] and [logger.rejections.handle]. *)
Record Logger : Type := mkLogger {
  level : string;
  transports : list Transport;
  exitOnError : bool;
  exceptionHandlers : list Transport;
  rejectionHandlers : list Transport
}.

(** Modelled from the spec: winston's routing of a record to a destination
    (the winston package is not among the sources). "Route each to the
    destinations whose minimum level is at or below the record's severity":
    the minimum level of a transport is its own [level] option, or the
    logger's level when it has none or an empty one
    ([this.level || this.parent.level]). *)
Definition minimumLevel (lg : Logger) (t : Transport) : string :=
  match transportLevel t with
  | Some l => if String.eqb l "" then level lg else l
  | None => level lg
  end.

(** Modelled from the spec: the level filter of a destination, missing with
    the winston package
    ([!level || levels[level] >= levels[info[LEVEL]]]): with no minimum level
    (the empty name) every record is received; otherwise the record is
    received when the number of its level is at most that of the minimum
    level, and a name outside the level table has no number to compare
    with. *)
Definition accepts (lg : Logger) (t : Transport) (i : Info) : bool :=
  let l := minimumLevel lg t in
  if String.eqb l "" then true
  else
    match levelOfName l with
    | Some n => levels (LEVEL i) <=? n
    | None => false
    end.

(** One line handed to a destination: the console ([None]) or a file. *)
Record Written : Type := mkWritten {
  target : option string;
  text : string
}.

(** Modelled from the spec: what a destination writes (the winston package
    is not among the sources). "Every formatting pipeline prepends a
    timestamp", and the destination writes the encoded record: the transport
    formats the info with its own format and writes [info[MESSAGE]]. The
    same is assumed of the transports of the exception and rejection
    handlers. *)
Definition write (ctx : Ctx) (t : Transport) (i : Info) : list Written :=
  match MESSAGE (transportFormat t ctx i) with
  | Some m => [mkWritten (transportFile t) m]
  | None => []
  end.

(** Modelled from the spec: a record passes through the logger (the winston
    package is not among the sources). "Route each to the destinations whose
    minimum level is at or below the record's severity": every transport
    that accepts the record writes it. A property named [exception] or
    [rejection] in the record plays no part in the routing. *)
Definition logRecord (lg : Logger) (ctx : Ctx) (i : Info) : list Written :=
  flat_map (fun t => if accepts lg t i then write ctx t i else [])
           (transports lg).

(** [v || d] inside a template literal. *)
Definition orElse (v : value) (d : string) : string :=
  if truthy v then toString v else d.

(** The record winston builds for an uncaught exception or an unhandled
    rejection (its diagnostic fields [date], [process], [os], [trace] are
    left out). *)
Definition faultInfo (kind flag : string) (message stack : value) : Info :=
  mkInfo
    [("level", VStr "error");
     ("message",
      VStr (kind ++ ": " ++ orElse message "(no error message)" ++ LF ++
            orElse stack "  No stack trace"));
     ("stack", stack);
     (flag, VBool true)]
    error None.

(** Modelled from the spec: winston's exception and rejection handlers (not
    among the sources). "Dedicated rotating files that receive exactly one
    record each time the process observes an uncaught synchronous fault or
    an unhandled asynchronous rejection; these bypass the normal
    minimum-level filter": the record goes to each transport given to
    [logger.exceptions.handle] (respectively [logger.rejections.handle]),
    and no level is compared. *)
Definition uncaughtException (lg : Logger) (ctx : Ctx) (message stack : value)
  : list Written :=
  flat_map (fun t => write ctx t (faultInfo "uncaughtException" "exception" message stack))
           (exceptionHandlers lg).

(** Modelled from the spec: the same for an unhandled rejection, with the
    transports given to [logger.rejections.handle]. *)
Definition unhandledRejection (lg : Logger) (ctx : Ctx) (message stack : value)
  : list Written :=
  flat_map (fun t => write ctx t (faultInfo "unhandledRejection" "rejection" message stack))
           (rejectionHandlers lg).

(** The lines that reached one file. *)
Definition linesOf (file : string) (out : list Written) : list string :=
  map text
      (filter (fun w => match target w with
                        | Some f => String.eqb f file
                        | None => false
                        end) out).

End Winston.

(* ================================================================== *)
(** ** A JSON runtime to run the model on *)
(* ================================================================== *)

(** A printer and a parser for the values of the model (integers for
    numbers, code units below 256). [render] follows the indentation rules of
    [JSON.stringify]; [compact] after [sortKeys] is the text that the
    stringifier of logform's [json()] writes: no white space, and the keys of
    every object in ascending order of their code units. It instantiates
    [Winston.Json] wherever the model is run on concrete records. *)
Module MiniJson.
Import Obj.

Definition QUOTE : string := String (ascii_of_nat 34) "".

Definition hexDigit (n : nat) : ascii :=
  if Nat.ltb n 10 then ascii_of_nat (48 + n) else ascii_of_nat (87 + n).

(** The escapes of [JSON.stringify]: the quote, the backslash, the five short
    escapes and [\u00XX] for the other control characters. *)
Definition escapeChar (c : ascii) : string :=
  let n := nat_of_ascii c in
  if Nat.eqb n 34 then "\" ++ QUOTE
  else if Nat.eqb n 92 then "\\"
  else if Nat.eqb n 8 then "\b"
  else if Nat.eqb n 12 then "\f"
  else if Nat.eqb n 10 then "\n"
  else if Nat.eqb n 13 then "\r"
  else if Nat.eqb n 9 then "\t"
  else if Nat.ltb n 32
       then "\u00" ++ String (hexDigit (n / 16)) (String (hexDigit (n mod 16)) "")
       else String c "".

Fixpoint escape (s : string) : string :=
  match s with
  | EmptyString => EmptyString
  | String c s' => escapeChar c ++ escape s'
  end.

Definition quote (s : string) : string := QUOTE ++ escape s ++ QUOTE.

Fixpoint spaces (n : nat) : string :=
  match n with
  | O => ""
  | S n' => String " " (spaces n')
  end.

(** Line break and indentation between the items of an array or object;
    nothing when the indent is zero. *)
Definition gap (indent depth : nat) : string :=
  match indent with
  | O => ""
  | _ => LF ++ spaces (indent * depth)
  end.

Definition colon (indent : nat) : string :=
  match indent with
  | O => ":"
  | _ => ": "
  end.

Fixpoint render (indent depth : nat) (v : value) : string :=
  match v with
  | VUndefined | VNull => "null"
  | VBool true => "true"
  | VBool false => "false"
  | VNum n => ofZ n
  | VStr s => quote s
  | VArr [] => "[]"
  | VArr xs =>
      "[" ++
      (fix items (l : list value) : string :=
         match l with
         | [] => ""
         | [x] => gap indent (S depth) ++ render indent (S depth) x
         | x :: l' =>
             gap indent (S depth) ++ render indent (S depth) x ++ "," ++ items l'
         end) xs
      ++ gap indent depth ++ "]"
  | VObj fields =>
      let body :=
        (fix members (first : bool) (l : list (string * value)) : string :=
           match l with
           | [] => ""
           | (_, VUndefined) :: l' => members first l'
           | (k, x) :: l' =>
               (if first then "" else ",") ++
               gap indent (S depth) ++ quote k ++ colon indent ++
               render indent (S depth) x ++ members false l'
           end) true fields in
      match body with
      | EmptyString => "{}"
      | _ => "{" ++ body ++ gap indent depth ++ "}"
      end
  end.

Fixpoint joinComma (parts : list string) : string :=
  match parts with
  | [] => ""
  | [p] => p
  | p :: ps => p ++ "," ++ joinComma ps
  end.

(** The text of a value with no white space. A property whose value is
    [undefined] is left out of its object; in an array [undefined] is written
    [null]. *)
Fixpoint compact (v : value) : string :=
  match v with
  | VUndefined | VNull => "null"
  | VBool true => "true"
  | VBool false => "false"
  | VNum n => ofZ n
  | VStr s => quote s
  | VArr xs => "[" ++ joinComma (map compact xs) ++ "]"
  | VObj fields =>
      "{" ++
      joinComma
        (flat_map (fun kv : string * value =>
                     let (k, x) := kv in
                     match x with
                     | VUndefined => []
                     | _ => [quote k ++ ":" ++ compact x]
                     end) fields)
      ++ "}"
  end.

(** The text of one member of an object. *)
Definition member (kv : string * value) : string :=
  quote (fst kv) ++ ":" ++ compact (snd kv).

(** A field goes in front of the first field whose key is not smaller. *)
Fixpoint insertField (kv : string * value) (l : obj) : obj :=
  match l with
  | [] => [kv]
  | kv' :: l' =>
      if String.ltb (fst kv') (fst kv) then kv' :: insertField kv l'
      else kv :: l
  end.

Definition sortFields (l : obj) : obj := fold_right insertField [] l.

(** The keys of every object of a value put in ascending order. *)
Fixpoint sortKeys (v : value) : value :=
  match v with
  | VArr xs => VArr (map sortKeys xs)
  | VObj fields =>
      VObj (sortFields
              (map (fun kv : string * value =>
                      let (k, x) := kv in (k, sortKeys x)) fields))
  | _ => v
  end.

(** The values that JSON text can hold as they are: no [undefined] anywhere,
    and integers in the range where a JavaScript number is exact. *)
Fixpoint serializable (v : value) : bool :=
  match v with
  | VUndefined => false
  | VNull | VBool _ | VStr _ => true
  | VNum n => Z.abs n <=? 9007199254740992
  | VArr xs => forallb serializable xs
  | VObj fields =>
      forallb (fun kv : string * value => let (_, x) := kv in serializable x)
              fields
  end.

Definition isSpace (c : ascii) : bool :=
  let n := nat_of_ascii c in
  Nat.eqb n 32 || Nat.eqb n 10 || Nat.eqb n 13 || Nat.eqb n 9.

Fixpoint skipWs (s : string) : string :=
  match s with
  | String c s' => if isSpace c then skipWs s' else s
  | EmptyString => s
  end.

Definition hexValue (c : ascii) : option nat :=
  let n := nat_of_ascii c in
  if Nat.leb 48 n && Nat.leb n 57 then Some (n - 48)%nat
  else if Nat.leb 97 n && Nat.leb n 102 then Some (n - 87)%nat
  else if Nat.leb 65 n && Nat.leb n 70 then Some (n - 55)%nat
  else None.

(** The characters of a string literal after its opening quote. [esc] tells
    that the previous character was a backslash. *)
Fixpoint parseChars (esc : bool) (s : string) : option (string * string) :=
  match s with
  | EmptyString => None
  | String c s' =>
      let n := nat_of_ascii c in
      let keep (d : ascii) (rest : string) :=
        match parseChars false rest with
        | Some (t, r) => Some (String d t, r)
        | None => None
        end in
      if esc then
        if Nat.eqb n 98 then keep (ascii_of_nat 8) s'
        else if Nat.eqb n 102 then keep (ascii_of_nat 12) s'
        else if Nat.eqb n 110 then keep (ascii_of_nat 10) s'
        else if Nat.eqb n 114 then keep (ascii_of_nat 13) s'
        else if Nat.eqb n 116 then keep (ascii_of_nat 9) s'
        else if Nat.eqb n 117 then
          match s' with
          | String a (String b (String h (String l rest))) =>
              match hexValue a, hexValue b, hexValue h, hexValue l with
              | Some 0%nat, Some 0%nat, Some x, Some y =>
                  match parseChars false rest with
                  | Some (t, r) => Some (String (ascii_of_nat (16 * x + y)) t, r)
                  | None => None
                  end
              | _, _, _, _ => None
              end
          | _ => None
          end
        else if Nat.eqb n 34 || Nat.eqb n 92 || Nat.eqb n 47 then keep c s'
        else None
      else if Nat.eqb n 34 then Some (EmptyString, s')
      else if Nat.eqb n 92 then parseChars true s'
      else if Nat.ltb n 32 then None
      else keep c s'
  end.

Definition isDigit (c : ascii) : bool :=
  let n := nat_of_ascii c in Nat.leb 48 n && Nat.leb n 57.

Definition startsDigit (s : string) : bool :=
  match s with
  | String c _ => isDigit c
  | EmptyString => false
  end.

(** The digits at the front of a string, and what follows them. *)
Fixpoint spanDigits (s : string) : string * string :=
  match s with
  | String c s' =>
      if isDigit c
      then let (d, r) := spanDigits s' in (String c d, r)
      else (EmptyString, s)
  | EmptyString => (EmptyString, s)
  end.

(** An integer literal: an optional minus sign and digits with no leading
    zero. *)
Definition parseNumber (s : string) : option (value * string) :=
  let (sign, r) :=
    match s with
    | String c r => if Ascii.eqb c "-" then ("-", r) else ("", s)
    | EmptyString => ("", s)
    end in
  let (d, rest) := spanDigits r in
  match d with
  | String "0" (String _ _) => None
  | _ =>
      match NilZero.int_of_string (sign ++ d) with
      | Some n => Some (VNum (Z.of_int n), rest)
      | None => None
      end
  end.

Fixpoint drop (n : nat) (s : string) : string :=
  match n, s with
  | S n', String _ s' => drop n' s'
  | _, _ => s
  end.

(** A value, the items of an array after its bracket, and the members of an
    object after its brace; [fuel] bounds the nesting and the item count. *)
Fixpoint parseValue (fuel : nat) (s : string) : option (value * string) :=
  match fuel with
  | O => None
  | S fuel' =>
      match skipWs s with
      | EmptyString => None
      | String c r as s1 =>
          if isDigit c || Ascii.eqb c "-" then parseNumber s1
          else if Ascii.eqb c "{" then
            match skipWs r with
            | EmptyString => None
            | String c' r' as r1 =>
                if Ascii.eqb c' "}" then Some (VObj [], r')
                else
                  match parseMembers fuel' r1 with
                  | Some (fs, rest) => Some (VObj fs, rest)
                  | None => None
                  end
            end
          else if Ascii.eqb c "[" then
            match skipWs r with
            | EmptyString => None
            | String c' r' as r1 =>
                if Ascii.eqb c' "]" then Some (VArr [], r')
                else
                  match parseItems fuel' r1 with
                  | Some (xs, rest) => Some (VArr xs, rest)
                  | None => None
                  end
            end
          else if Ascii.eqb c (ascii_of_nat 34) then
            match parseChars false r with
            | Some (t, rest) => Some (VStr t, rest)
            | None => None
            end
          else if JS.startsWith s1 "true" then Some (VBool true, drop 4 s1)
          else if JS.startsWith s1 "false" then Some (VBool false, drop 5 s1)
          else if JS.startsWith s1 "null" then Some (VNull, drop 4 s1)
          else None
      end
  end
with parseItems (fuel : nat) (s : string) : option (list value * string) :=
  match fuel with
  | O => None
  | S fuel' =>
      match parseValue fuel' s with
      | Some (x, rest) =>
          match skipWs rest with
          | String c rest' =>
              if Ascii.eqb c "," then
                match parseItems fuel' rest' with
                | Some (xs, r) => Some (x :: xs, r)
                | None => None
                end
              else if Ascii.eqb c "]" then Some ([x], rest')
              else None
          | EmptyString => None
          end
      | None => None
      end
  end
with parseMembers (fuel : nat) (s : string)
  : option (list (string * value) * string) :=
  match fuel with
  | O => None
  | S fuel' =>
      match skipWs s with
      | String c r =>
          if Ascii.eqb c (ascii_of_nat 34) then
            match parseChars false r with
            | Some (k, afterKey) =>
                match skipWs afterKey with
                | String c1 afterColon =>
                    if Ascii.eqb c1 ":" then
                      match parseValue fuel' afterColon with
                      | Some (x, rest) =>
                          match skipWs rest with
                          | String c2 rest' =>
                              if Ascii.eqb c2 "," then
                                match parseMembers fuel' rest' with
                                | Some (fs, r') => Some ((k, x) :: fs, r')
                                | None => None
                                end
                              else if Ascii.eqb c2 "}" then Some ([(k, x)], rest')
                              else None
                          | EmptyString => None
                          end
                      | None => None
                      end
                    else None
                | EmptyString => None
                end
            | None => None
            end
          else None
      | EmptyString => None
      end
  end.

Definition parseText (s : string) : option value :=
  match parseValue (S (String.length s)) s with
  | Some (v, rest) =>
      match skipWs rest with
      | EmptyString => Some v
      | _ => None
      end
  | None => None
  end.

(** The number of nodes of a value: the fuel that reading it back takes. *)
Fixpoint size (v : value) : nat :=
  match v with
  | VArr xs => S (fold_right (fun x n => S (size x + n)) O xs)
  | VObj fields =>
      S (fold_right (fun (kv : string * value) n =>
                       let (_, x) := kv in S (size x + n)) O fields)
  | _ => 1
  end.

Definition itemsSize (xs : list value) : nat :=
  fold_right (fun x n => S (size x + n)) O xs.

Definition membersSize (fields : obj) : nat :=
  fold_right (fun (kv : string * value) n =>
                let (_, x) := kv in S (size x + n)) O fields.

(** A value reads back from its text, whatever follows it that is no digit. *)
Definition readsBack (x : value) : Prop :=
  forall fuel rest, (size x <= fuel)%nat -> startsDigit rest = false ->
    parseValue fuel (compact x ++ rest) = Some (x, rest).

#[export] Instance runtime : Winston.Json := {
  Winston.stringify indent v := render indent 0 v;
  Winston.parse := parseText;
  Winston.stableStringify v := compact (sortKeys v)
}.

End MiniJson.

(* ================================================================== *)
(** ** src/utils/logger.ts *)
(* ================================================================== *)

Module Logger.
Import Obj Log Winston.

(** [config.logging] *)
Record LoggingConfig : Type := mkLoggingConfig {
  cfg_level : string;
  cfg_format : string;
  cfg_directory : string;
  cfg_maxSize : string;
  cfg_maxFiles : string
}.

(** What [createLogger] reads from the process. *)
Record ProcessEnv : Type := mkProcessEnv {
  NODE_ENV : option string;
  ENABLE_CONSOLE_LOGS : option string;
  cwd : string
}.

(** [path.resolve(base, dir)] and [path.join(dir, name)] on POSIX paths; the
    folding of [.] and [..] segments is left out. *)
Definition path_resolve (base dir : string) : string :=
  if JS.startsWith dir "/" then dir else base ++ "/" ++ dir.

Definition path_join (dir name : string) : string := dir ++ "/" ++ name.

Section WithJson.
Context {J : Json}.

(** Custom format for pretty console output (development). *)
Definition prettyTemplate (o : obj) : string :=
  let metadata := omit ["level"; "message"; "timestamp"] o in
  let msg := toString (prop "timestamp" o) ++ " [" ++ toString (prop "level" o)
             ++ "]: " ++ toString (prop "message" o) in
  if (0 <? length (keys metadata))%nat
  then msg ++ LF ++ stringify 2 (VObj metadata)
  else msg.

Definition prettyFormat : Format := printf prettyTemplate.

Definition defaultLogConfig : LoggingConfig :=
  mkLoggingConfig "info" "json" "logs" "20m" "14d".

(** Base format for all logs. *)
Definition baseFormat : Format :=
  combine [timestamp "YYYY-MM-DD HH:mm:ss"; errors].

(** The value the base format leaves in [info.timestamp]. *)
Definition stamp (ctx : Ctx) : value :=
  VStr (fechaFormat (ctx_now ctx) "YYYY-MM-DD HH:mm:ss").

(** Console transport format (pretty for dev, json for prod). *)
Definition consoleFormat (logConfig : LoggingConfig) : Format :=
  if String.eqb (cfg_format logConfig) "pretty"
  then combine [baseFormat; colorize; align; prettyFormat]
  else combine [baseFormat; json].

(** File transport format (always JSON for parsing). *)
Definition fileFormat : Format := combine [baseFormat; json].

Definition rotatingFile (logDir name : string) (logConfig : LoggingConfig)
    (lvl : option string) : Transport :=
  DailyRotateFile (path_join logDir name) "YYYY-MM-DD"
    (cfg_maxSize logConfig) (cfg_maxFiles logConfig) fileFormat lvl.

(** The line that [fileFormat] makes of an info. *)
Definition fileLine (ctx : Ctx) (i : Info) : string :=
  stableStringify (VObj (set "timestamp" (stamp ctx) (props i))).

(** File transport - Combined logs. *)
Definition combinedTransport (logDir : string) (logConfig : LoggingConfig) :=
  rotatingFile logDir "application-%DATE%.log" logConfig
    (Some (cfg_level logConfig)).

(** File transport - Error logs only. *)
Definition errorTransport (logDir : string) (logConfig : LoggingConfig) :=
  rotatingFile logDir "error-%DATE%.log" logConfig (Some "error").

(** The transports that handle uncaught exceptions and rejections. *)
Definition exceptionsTransport (logDir : string) (logConfig : LoggingConfig) :=
  rotatingFile logDir "exceptions-%DATE%.log" logConfig None.

Definition rejectionsTransport (logDir : string) (logConfig : LoggingConfig) :=
  rotatingFile logDir "rejections-%DATE%.log" logConfig None.

(** [config.logging || { level: 'info', ... }] *)
Definition logConfigOf (logging : option LoggingConfig) : LoggingConfig :=
  match logging with
  | Some c => c
  | None => defaultLogConfig
  end.

Definition logDirOf (logging : option LoggingConfig) (env : ProcessEnv) : string :=
  path_resolve (cwd env) (cfg_directory (logConfigOf logging)).

(** Create the winston logger instance with its transports. What is built
    is the description of the logger; opening the log directory and the
    files, which can fail at start-up, is not part of it. *)
Definition createLogger (logging : option LoggingConfig) (env : ProcessEnv)
  : Logger :=
  let logConfig := logConfigOf logging in
  let logDir := logDirOf logging env in
  let isDevelopment :=
    match NODE_ENV env with
    | Some e => negb (String.eqb e "production")
    | None => true
    end in
  let consoleEnabled :=
    isDevelopment ||
    match ENABLE_CONSOLE_LOGS env with
    | Some e => String.eqb e "true"
    | None => false
    end in
  let console :=
    if consoleEnabled
    then [Console (consoleFormat logConfig) (Some (cfg_level logConfig))]
    else [] in
  {| level := cfg_level logConfig;
     transports :=
       console ++
       [combinedTransport logDir logConfig; errorTransport logDir logConfig];
     exitOnError := false;
     exceptionHandlers := [exceptionsTransport logDir logConfig];
     rejectionHandlers := [rejectionsTransport logDir logConfig] |}.

(** The name of the file a rotating transport writes to. *)
Definition fileOf (t : Transport) : string :=
  match transportFile t with
  | Some f => f
  | None => ""
  end.

End WithJson.

Import World.
Local Open Scope world_scope.

(** [logger.<level>(message, meta)] as its callers see it: the logger
    receives the call. *)
Definition logger_log (l : Level) (message : string) (meta : option obj)
  : M unit :=
  modify (emit (mkLogCall l message meta)).

(** Stream object for the Morgan HTTP logger integration:
    [write: (message) => logger.http(message.trim())]. *)
Definition logStream_write (message : string) : M unit :=
  logger_log http (JS.trim message) None.

End Logger.

(* ================================================================== *)
(** ** What the code relies on from morgan *)
(* ================================================================== *)

Module Morgan.
Import World.
Local Open Scope world_scope.

(** Modelled from the spec: morgan's request logger (the morgan package is
    not among the sources). "Skip emission when" the skip predicate holds of
    the request and the finished response; otherwise "emission happens
    exactly once per request, after the response has fully completed": the
    formatted line and a line feed go to the stream's [write]. *)
Definition logRequest
    (formatLine : Request -> Response -> string)
    (write : string -> M unit)
    (skip : Request -> Response -> bool)
    (req res : loc) : M unit :=
  rq <- gets (fun w => requests w req) ;;
  rs <- gets (fun w => responses w res) ;;
  if skip rq rs then ret tt
  else write (formatLine rq rs ++ Obj.LF).

End Morgan.

(* ================================================================== *)
(** ** src/middlewares/httpLogger.ts *)
(* ================================================================== *)

Module HttpLogger.
Import Obj Log World.
Local Open Scope world_scope.

(** Development format. *)
Definition devFormat : string :=
  ":method :url :status :response-time ms - :res[content-length] :real-ip".

(** Production format. *)
Definition prodFormat {J : Winston.Json} : string :=
  Winston.stringify 0
    (VObj [("method", VStr ":method");
           ("url", VStr ":url");
           ("status", VStr ":status");
           ("responseTime", VStr ":response-time ms");
           ("contentLength", VStr ":res[content-length]");
           ("ip", VStr ":real-ip");
           ("userAgent", VStr ":user-agent");
           ("requestId", VStr ":request-id");
           ("userId", VStr ":user-id");
           ("timestamp", VStr ":date[iso]")]).

(** Skip logging for certain routes (health checks, metrics, etc.) *)
Definition skipRoutes : list string := ["/health"; "/metrics"; "/favicon.ico"].

Definition shouldSkipLog (req : Request) (res : Response) : bool :=
  if existsb (fun route => JS.startsWith (url req) route) skipRoutes then true
  else if JS.includes (url req) "health" && (statusCode res =? 200) then true
  else false.

(** The suppression rule in the words of the specification: the path starts
    with an entry of the exclusion list, or it contains [health] and the
    status is exactly 200. *)
Definition skipCondition (req : Request) (res : Response) : Prop :=
  (exists route, In route skipRoutes /\ exists rest, url req = route ++ rest) \/
  ((exists before after, url req = before ++ "health" ++ after) /\
   statusCode res = 200).

(** The HTTP request logger: morgan with the format chosen by [NODE_ENV],
    [logStream] as its stream and [shouldSkipLog] as its skip predicate.
    [compile] is morgan's format compiler. *)
Definition httpLogger {J : Winston.Json}
    (compile : string -> Request -> Response -> string)
    (NODE_ENV : option string) (req res : loc) : M unit :=
  let format :=
    match NODE_ENV with
    | Some "production" => prodFormat
    | _ => devFormat
    end in
  Morgan.logRequest (compile format) Logger.logStream_write shouldSkipLog req res.

(** The metadata objects of the three log calls. *)
Definition incomingMeta (rq : Request) : obj :=
  [("method", VStr (method rq));
   ("url", VStr (url rq));
   ("headers", headers rq);
   ("query", query rq);
   ("body", body rq);
   ("ip", ip rq)].

Definition outgoingMeta (rq : Request) (rs : Response) (duration : Z) : obj :=
  [("method", VStr (method rq));
   ("url", VStr (url rq));
   ("statusCode", VNum (statusCode rs));
   ("duration", VStr (ofZ duration ++ "ms"));
   ("headers", getHeaders rs)].

Definition requestErrorMeta (e : ErrorObj) (rq : Request) : obj :=
  [("error",
    VObj [("message", err_message e);
          ("stack", err_stack e);
          ("name", err_name e)]);
   ("request",
    VObj [("method", VStr (method rq));
          ("url", VStr (url rq));
          ("headers", headers rq);
          ("query", query rq);
          ("body", body rq);
          ("ip", ip rq)])].

(** Calling a function stored in [res.end] on the receiver [this]. A function
    from outside behaves as [extern] says; the closure of
    [detailedHttpLogger] logs the response and calls the function it
    captured. *)
Fixpoint callEnd
    (extern : nat -> loc -> value -> value -> value -> M value)
    (f : EndFn) (this : loc) (chunk encoding callback : value) : M value :=
  match f with
  | ExternEnd id => extern id this chunk encoding callback
  | DetailedEnd startTime req res originalEnd =>
      now <- gets clock ;;
      let duration := now - startTime in
      rq <- gets (fun w => requests w req) ;;
      rs <- gets (fun w => responses w res) ;;
      Logger.logger_log debug "Outgoing response"
        (Some (outgoingMeta rq rs duration)) ;;;
      callEnd extern originalEnd this chunk encoding callback
  end.

(** The function from outside that a chain of closures ends in, and the
    number of closures before it. *)
Fixpoint innermost (f : EndFn) : nat :=
  match f with
  | ExternEnd id => id
  | DetailedEnd _ _ _ originalEnd => innermost originalEnd
  end.

Fixpoint wrappers (f : EndFn) : nat :=
  match f with
  | ExternEnd _ => O
  | DetailedEnd _ _ _ originalEnd => S (wrappers originalEnd)
  end.

(** The detailed HTTP logger for debugging. *)
Definition detailedHttpLogger (req res : loc) (next : M unit) : M unit :=
  startTime <- gets clock ;;
  rq <- gets (fun w => requests w req) ;;
  Logger.logger_log debug "Incoming request" (Some (incomingMeta rq)) ;;;
  originalEnd <- gets (fun w => end_ (responses w res)) ;;
  modify (assignEnd res (DetailedEnd startTime req res originalEnd)) ;;;
  next.

(** The error logging middleware. *)
Definition errorLogger (err req res : loc) (next : loc -> M unit) : M unit :=
  e <- gets (fun w => errors w err) ;;
  rq <- gets (fun w => requests w req) ;;
  Logger.logger_log error "Request error" (Some (requestErrorMeta e rq)) ;;;
  next err.

End HttpLogger.

(* ================================================================== *)
(** ** config/index.js *)
(* ================================================================== *)

Module Config.

(** What [loadConfig] prints: [console.log] and [console.error] calls. *)
Inductive ConsoleLine : Type :=
| LoadingFor (env : string)          (* Loading configuration for environment: env *)
| Using (name : string)              (* Using <name> configuration *)
| ErrorLoading (configFile : string) (* Error loading config file: configFile *)
| ErrorMessage (message : string)    (* error.message *)
| FallingBack.                       (* Falling back to development configuration *)

Section LoadConfig.

(** The configuration objects, and [require]: a module that loads gives its
    exports, one that is missing or malformed throws an error with a
    message. *)
Variable Conf : Type.
Variable require : string -> string + Conf.

(** The configuration file selected by [env.toLowerCase()]. *)
Definition selectConfig (env : string) : string * string :=
  let e := JS.toLowerCase env in
  if String.eqb e "production" then ("./production.js", "production")
  else if String.eqb e "staging" then ("./staging.js", "staging")
  else if String.eqb e "test" then ("./test.js", "test")
  else ("./development.js", "development").

(** [process.env.NODE_ENV || 'development'] *)
Definition envOf (NODE_ENV : option string) : string :=
  match NODE_ENV with
  | Some e => if String.eqb e "" then "development" else e
  | None => "development"
  end.

(** Load configuration based on [NODE_ENV]. The result is the printed lines
    and either the configuration returned ([inr]) or the error thrown out of
    [loadConfig] ([inl]), with which the module fails to load. *)
Definition loadConfig (NODE_ENV : option string)
  : list ConsoleLine * (string + Conf) :=
  let env := envOf NODE_ENV in
  let (configFile, name) := selectConfig env in
  let printed := [LoadingFor env; Using name] in
  match require configFile with
  | inr config => (printed, inr config)
  | inl message =>
      ((printed ++ [ErrorLoading configFile; ErrorMessage message; FallingBack])%list,
       require "./development.js")
  end.

End LoadConfig.

End Config.

(* ================================================================== *)
(** ** Concrete inputs *)
(* ================================================================== *)

Module Sample.
Import Obj Log World.

Definition request (u : string) : Request :=
  mkRequest "GET" u (VObj [("host", VStr "localhost:3000")]) (VObj [])
            VUndefined (VStr "127.0.0.1").

Definition response (status : Z) : Response :=
  mkResponse status (VObj [("content-length", VStr "2")]) (ExternEnd 0).

Definition boom : ErrorObj :=
  mkErrorObj (VStr "boom") (VStr "Error: boom at handler") (VStr "Error").

(** A world with one request, its response and one error, nothing logged. *)
Definition world (u : string) (status : Z) : world :=
  mkWorld [] (fun _ => request u) (fun _ => response status) (fun _ => boom) 0.

(** A format compiler that fills in the method, the url and the status. *)
Definition compile (format : string) (rq : Request) (rs : Response) : string :=
  method rq ++ " " ++ url rq ++ " " ++ ofZ (statusCode rs).

(** The [logging] sections of the configuration files. *)
Definition development : Logger.LoggingConfig :=
  Logger.mkLoggingConfig "debug" "pretty" "logs" "20m" "14d".

Definition production : Logger.LoggingConfig :=
  Logger.mkLoggingConfig "error" "json" "logs" "50m" "30d".

Definition test : Logger.LoggingConfig :=
  Logger.mkLoggingConfig "silent" "json" "logs" "10m" "7d".

(** A module loader for a checkout that has no [staging.js]. *)
Definition require (file : string) : string + Logger.LoggingConfig :=
  if String.eqb file "./development.js" then inr development
  else if String.eqb file "./production.js" then inr production
  else if String.eqb file "./test.js" then inr test
  else inl ("Cannot find module " ++ file).

Definition env : Logger.ProcessEnv :=
  Logger.mkProcessEnv (Some "development") None "/srv/app".

Definition ctx : Winston.Ctx :=
  Winston.mkCtx (Winston.mkDateTime 2025 12 13 9 5 7) false.

(** [logger.info('Server started', { port: 3000 })] as an info object. *)
Definition started : Winston.Info :=
  Winston.mkInfo
    [("port", VNum 3000); ("level", VStr "info");
     ("message", VStr "Server started")]
    info None.

(** [logger.info('Server started')] as an info object. *)
Definition startedPlain : Winston.Info :=
  Winston.mkInfo [("message", VStr "Server started"); ("level", VStr "info")]
    info None.

(** [logger.info('Server started', { timestamp: 'yesterday' })] as an info
    object: the metadata has a key named [timestamp]. *)
Definition stamped : Winston.Info :=
  Winston.mkInfo
    [("timestamp", VStr "yesterday"); ("level", VStr "info");
     ("message", VStr "Server started")]
    info None.

Definition ctxColors : Winston.Ctx :=
  Winston.mkCtx (Winston.mkDateTime 2025 12 13 9 5 7) true.

End Sample.

(* ================================================================== *)
(** ** src/middlewares/httpLogger.ts: the custom morgan tokens *)
(* ================================================================== *)

Module AccessTokens.
Import Obj World.

(** What the token functions read of a request besides [req.ip]:
    [req.socket.remoteAddress], [req.id] and [req.user]. *)
Record TokenInput : Type := mkTokenInput {
  request : Request;
  remoteAddress : value;
  id : value;
  user : value
}.

(** [a || b] *)
Definition orValue (a b : value) : value := if truthy a then a else b.

(** [v?.id] *)
Definition optionalId (v : value) : value :=
  match v with
  | VObj o => prop "id" o
  | _ => VUndefined
  end.

(** Custom Morgan token to get the real IP address. *)
Definition realIp (r : TokenInput) : value :=
  orValue (orValue (ip (request r)) (remoteAddress r)) (VStr "unknown").

(** Custom Morgan token to get request ID (if available). *)
Definition requestId (r : TokenInput) : value :=
  orValue (id r) (VStr "-").

(** Custom Morgan token to get user ID (if authenticated). *)
Definition userId (r : TokenInput) : value :=
  orValue (optionalId (user r)) (VStr "-").

(** [process.env.NODE_ENV === 'production' ? prodFormat : devFormat] *)
Definition selectedFormat {J : Winston.Json} (NODE_ENV : option string) : string :=
  match NODE_ENV with
  | Some "production" => HttpLogger.prodFormat
  | _ => HttpLogger.devFormat
  end.

(** [detailedHttpLogger] registered [n] times in a row on the same request
    and response, each one calling the next through [next()]. *)
Fixpoint stacked (n : nat) (req res : loc) (next : M unit) : M unit :=
  match n with
  | O => next
  | S n' => HttpLogger.detailedHttpLogger req res (stacked n' req res next)
  end.

End AccessTokens.

(* ================================================================== *)
(** ** config/default.js, development.js, production.js, test.js *)
(* ================================================================== *)

Module ConfigFiles.

(** [process.env] *)
Definition Env : Type := string -> option string.

(** [process.env.X || 'd']: an unset or empty variable gives the default. *)
Definition orDefault (v : option string) (d : string) : string :=
  match v with
  | Some s => if String.eqb s "" then d else s
  | None => d
  end.

(** A JavaScript number: [NaN], an integer that a double holds exactly, or
    the double that an integer of larger magnitude is rounded to ([Inexact n]
    stands for the rounding of [n], which the model does not work out). *)
Inductive num : Type :=
| NaN
| Num (n : Z)
| Inexact (n : Z).

(** The number that the mathematical integer [n] becomes: itself up to
    2^53 in magnitude, rounded beyond. *)
Definition ofInteger (n : Z) : num :=
  if Z.abs n <=? 9007199254740992 then Num n else Inexact n.

Definition isDigit (c : ascii) : bool :=
  let n := nat_of_ascii c in Nat.leb 48 n && Nat.leb n 57.

(** The leading decimal digits of a string, read as a number on top of
    [acc]; [None] when the string does not start with a digit. *)
Fixpoint digits (acc : nat) (seen : bool) (s : string) : option nat :=
  match s with
  | String c s' =>
      if isDigit c
      then digits (10 * acc + (nat_of_ascii c - 48)) true s'
      else if seen then Some acc else None
  | EmptyString => if seen then Some acc else None
  end.

(** [parseInt(s, 10)]: leading white space is skipped, one sign is read, then
    the longest run of decimal digits; no digit gives [NaN], and the integer
    that the digits spell becomes a number. *)
Definition parseInt (s : string) : num :=
  match JS.trimStart s with
  | String "-" rest =>
      match digits 0 false rest with
      | Some n => ofInteger (- Z.of_nat n)
      | None => NaN
      end
  | String "+" rest =>
      match digits 0 false rest with
      | Some n => ofInteger (Z.of_nat n)
      | None => NaN
      end
  | rest =>
      match digits 0 false rest with
      | Some n => ofInteger (Z.of_nat n)
      | None => NaN
      end
  end.

(** [server.port]: a number, or the text of [PORT] where the file does not
    parse it. *)
Inductive portValue : Type :=
| PortText (s : string)
| PortNumber (n : num).

Record ServerConfig : Type := mkServer {
  port : portValue;
  host : string;
  env : string
}.

Record DatabaseConfig : Type := mkDatabase {
  db_host : string;
  db_port : num;
  database : string;
  db_user : string;
  password : option string;          (* [None] is [undefined] *)
  max : num;
  idleTimeoutMillis : num;
  connectionTimeoutMillis : num;
  ssl_rejectUnauthorized : option bool (* [None]: no [ssl] section *)
}.

Record CacheConfig : Type := mkCache {
  ttl : num;
  checkPeriod : num
}.

Record SecurityConfig : Type := mkSecurity {
  rateLimit_windowMs : Z;
  rateLimit_max : Z;
  cors_origin : string;
  cors_credentials : bool
}.

Record AppConfig : Type := mkAppConfig {
  server : ServerConfig;
  db : DatabaseConfig;
  cache : CacheConfig;
  logging : Logger.LoggingConfig;
  security : SecurityConfig
}.

(** config/default.js *)
Definition default_js : AppConfig :=
  {| server := mkServer (PortNumber (Num 3000)) "localhost" "development";
     db := mkDatabase "localhost" (Num 5432) "myapp_dev" "postgres"
             (Some "postgres") (Num 20) (Num 30000) (Num 2000) None;
     cache := mkCache (Num 300) (Num 320);
     logging := Logger.mkLoggingConfig "info" "json" "logs" "20m" "14d";
     security := mkSecurity (15 * 60 * 1000) 100 "http://localhost:3000" true |}.

(** config/development.js *)
Definition development_js (e : Env) : AppConfig :=
  {| server :=
       mkServer
         (match e "PORT" with
          | Some s => if String.eqb s "" then PortNumber (Num 3000) else PortText s
          | None => PortNumber (Num 3000)
          end)
         "localhost" "development";
     db := mkDatabase
             (orDefault (e "DB_HOST") "localhost")
             (parseInt (orDefault (e "DB_PORT") "5432"))
             (orDefault (e "DB_NAME") "myapp_dev")
             (orDefault (e "DB_USER") "postgres")
             (Some (orDefault (e "DB_PASSWORD") "postgres"))
             (parseInt (orDefault (e "DB_MAX_POOL") "20"))
             (parseInt (orDefault (e "DB_IDLE_TIMEOUT") "30000"))
             (Num 2000) None;
     cache := mkCache (parseInt (orDefault (e "CACHE_TTL") "300"))
                      (parseInt (orDefault (e "CACHE_CHECK_PERIOD") "320"));
     logging := Logger.mkLoggingConfig (orDefault (e "LOG_LEVEL") "debug")
                  "pretty" (orDefault (e "LOG_DIR") "logs") "20m" "14d";
     security := mkSecurity (15 * 60 * 1000) 100
                   (orDefault (e "CORS_ORIGIN") "http://localhost:3000") true |}.

(** config/production.js *)
Definition production_js (e : Env) : AppConfig :=
  {| server :=
       mkServer (PortNumber (parseInt (orDefault (e "PORT") "8080")))
                (orDefault (e "HOST") "0.0.0.0") "production";
     db := mkDatabase
             (orDefault (e "DB_HOST") "localhost")
             (parseInt (orDefault (e "DB_PORT") "5432"))
             (orDefault (e "DB_NAME") "myapp_prod")
             (orDefault (e "DB_USER") "postgres")
             (e "DB_PASSWORD")
             (parseInt (orDefault (e "DB_MAX_POOL") "50"))
             (parseInt (orDefault (e "DB_IDLE_TIMEOUT") "30000"))
             (Num 2000) (Some false);
     cache := mkCache (parseInt (orDefault (e "CACHE_TTL") "600"))
                      (parseInt (orDefault (e "CACHE_CHECK_PERIOD") "620"));
     logging := Logger.mkLoggingConfig (orDefault (e "LOG_LEVEL") "error")
                  "json" (orDefault (e "LOG_DIR") "logs") "50m" "30d";
     security := mkSecurity (15 * 60 * 1000) 50
                   (orDefault (e "CORS_ORIGIN") "https://yourdomain.com") true |}.

(** config/test.js *)
Definition test_js : AppConfig :=
  {| server := mkServer (PortNumber (Num 3001)) "localhost" "test";
     db := mkDatabase "localhost" (Num 5432) "myapp_test" "postgres"
             (Some "postgres") (Num 5) (Num 30000) (Num 2000) None;
     cache := mkCache (Num 60) (Num 70);
     logging := Logger.mkLoggingConfig "silent" "json" "logs" "10m" "7d";
     security := mkSecurity (15 * 60 * 1000) 1000 "*" true |}.

(** [require] over the configuration directory: the three environment files
    of the sources load, [staging.js] is as the checkout has it, and any
    other name is not found. *)
Definition requireConfig (e : Env) (staging : string + AppConfig)
    (file : string) : string + AppConfig :=
  if String.eqb file "./development.js" then inr (development_js e)
  else if String.eqb file "./production.js" then inr (production_js e)
  else if String.eqb file "./test.js" then inr test_js
  else if String.eqb file "./staging.js" then staging
  else inl ("Cannot find module " ++ file).

(** [config = require('../../config')] followed by [createLogger()]: the
    logger of a process started in environment [e] with working directory
    [dir]; [None] when the configuration module fails to load. *)
Definition startLogger {J : Winston.Json} (e : Env)
    (staging : string + AppConfig) (dir : string) : option Winston.Logger :=
  match snd (Config.loadConfig AppConfig (requireConfig e staging) (e "NODE_ENV")) with
  | inr config =>
      Some (Logger.createLogger (Some (logging config))
              (Logger.mkProcessEnv (e "NODE_ENV") (e "ENABLE_CONSOLE_LOGS") dir))
  | inl _ => None
  end.

End ConfigFiles.

(* ================================================================== *)
(** ** src/index.ts: the process hooks *)
(* ================================================================== *)

Module Index.
Import Obj Log World.

(** The process: the world its code logs into, the timers set with
    [setTimeout] (each one an exit code and the clock reading at which it is
    due), and the exit code once [process.exit] has been called. *)
Record process : Type := mkProcess {
  pworld : world;
  timers : list (Z * Z);
  exited : option Z
}.

Definition logInto (c : LogCall) (p : process) : process :=
  {| pworld := emit c (pworld p); timers := timers p; exited := exited p |}.

(** [process.exit(code)] *)
Definition exit (code : Z) (p : process) : process :=
  {| pworld := pworld p; timers := timers p; exited := Some code |}.

(** [setTimeout(() => process.exit(code), delay)] *)
Definition exitAfter (delay code : Z) (p : process) : process :=
  {| pworld := pworld p;
     timers := (timers p ++ [(clock (pworld p) + delay, code)])%list;
     exited := exited p |}.

(** [v?.toString()] *)
Definition optionalToString (v : value) : value :=
  match v with
  | VUndefined | VNull => VUndefined
  | _ => VStr (toString v)
  end.

(** Handle uncaught exceptions. *)
Definition onUncaughtException (err : loc) (p : process) : process :=
  let e := errors (pworld p) err in
  exitAfter 1000 1
    (logInto (mkLogCall error "Uncaught Exception"
                (Some [("error",
                        VObj [("message", err_message e);
                              ("stack", err_stack e);
                              ("name", err_name e)])])) p).

(** Handle unhandled promise rejections; a promise prints as
    [[object Promise]]. *)
Definition onUnhandledRejection (reason : value) (p : process) : process :=
  logInto (mkLogCall error "Unhandled Rejection"
             (Some [("reason", optionalToString reason);
                    ("promise", VStr "[object Promise]")])) p.

(** Handle graceful shutdown. *)
Definition onSIGTERM (p : process) : process :=
  exit 0 (logInto (mkLogCall info
            "SIGTERM signal received: closing application gracefully" None) p).

Definition onSIGINT (p : process) : process :=
  exit 0 (logInto (mkLogCall info
            "SIGINT signal received: closing application gracefully" None) p).

(** What the module does when it is loaded, up to its last statement;
    [testUtil] is the value that [testUtil()] returns. *)
Definition main (testUtil : value) (p : process) : process :=
  logInto (mkLogCall info "Application initialized successfully" None)
    (logInto (mkLogCall debug "Test utility output"
                (Some [("result", testUtil)]))
       (logInto (mkLogCall info "TypeScript is working!" None)
          (logInto (mkLogCall info "Starting application..." None) p))).

(** What can happen to the running process. *)
Inductive event : Type :=
| UncaughtException (err : loc)
| UnhandledRejection (reason : value)
| SIGTERM
| SIGINT
| Elapse (ms : Z).

Definition setClock (t : Z) (w : world) : world :=
  {| emitted := emitted w; requests := requests w; responses := responses w;
     errors := errors w; clock := t |}.

(** Time passes: the clock moves on and the first timer that has come due,
    if any, runs its [process.exit]. *)
Definition elapse (ms : Z) (p : process) : process :=
  let t := clock (pworld p) + Z.max 0 ms in
  let p' := {| pworld := setClock t (pworld p); timers := timers p;
               exited := exited p |} in
  match find (fun timer => fst timer <=? t) (timers p) with
  | Some timer => exit (snd timer) p'
  | None => p'
  end.

(** One event reaches the process; a process that has exited runs no more
    code. *)
Definition step (p : process) (ev : event) : process :=
  match exited p with
  | Some _ => p
  | None =>
      match ev with
      | UncaughtException err => onUncaughtException err p
      | UnhandledRejection reason => onUnhandledRejection reason p
      | SIGTERM => onSIGTERM p
      | SIGINT => onSIGINT p
      | Elapse ms => elapse ms p
      end
  end.

Definition run (p : process) (evs : list event) : process :=
  fold_left step evs p.

(** A process that has just loaded the module. *)
Definition started (testUtil : value) (w : world) : process :=
  main testUtil (mkProcess w [] None).

Definition isRejection (ev : event) : bool :=
  match ev with
  | UnhandledRejection _ => true
  | _ => false
  end.

Definition isException (ev : event) : bool :=
  match ev with
  | UncaughtException _ => true
  | _ => false
  end.

Definition isSignal (ev : event) : bool :=
  match ev with
  | SIGTERM | SIGINT => true
  | _ => false
  end.

Definition isElapse (ev : event) : bool :=
  match ev with
  | Elapse _ => true
  | _ => false
  end.

End Index.

(* ================================================================== *)
(** ** Further concrete inputs *)
(* ================================================================== *)

Module Scenario.
Import Obj World.

(** A request from an authenticated user behind a proxy that set no
    [req.ip]; no request id was attached. *)
Definition visitor : AccessTokens.TokenInput :=
  AccessTokens.mkTokenInput
    (mkRequest "GET" "/api/users" (VObj []) (VObj []) VUndefined VUndefined)
    (VStr "10.0.0.7") (VStr "") (VObj [("id", VNum 42)]).

(** [NODE_ENV=production] and nothing else set. *)
Definition productionEnv : ConfigFiles.Env :=
  fun k => if String.eqb k "NODE_ENV" then Some "production" else None.

(** [NODE_ENV=test] and nothing else set. *)
Definition testEnv : ConfigFiles.Env :=
  fun k => if String.eqb k "NODE_ENV" then Some "test" else None.

(** [PORT=abc] in an otherwise empty environment. *)
Definition badPortEnv : ConfigFiles.Env :=
  fun k => if String.eqb k "PORT" then Some "abc" else None.

(** [PORT=4443] in an otherwise empty environment. *)
Definition portEnv : ConfigFiles.Env :=
  fun k => if String.eqb k "PORT" then Some (Winston.ofNat 4443) else None.

(** A configuration directory in which nothing loads. *)
Definition brokenRequire (file : string) : string + Logger.LoggingConfig :=
  inl ("SyntaxError in " ++ file).

(** An access-log record as an info object. *)
Definition accessInfo : Winston.Info :=
  Winston.mkInfo
    [("message", VStr "GET /api/users 200 45 ms - 2 127.0.0.1");
     ("level", VStr "http")]
    Log.http None.

(** An error record as an info object. *)
Definition failureInfo : Winston.Info :=
  Winston.mkInfo
    [("message", VStr "Request error"); ("level", VStr "error")]
    Log.error None.

End Scenario.

(* ================================================================== *)
(** * Properties *)
(* ================================================================== *)

(** ** Strings *)

Section StringFacts.
Import JS.

Lemma startsWith_spec (s p : string) :
  startsWith s p = true <-> exists rest, s = p ++ rest.
Proof.
  revert s. induction p as [|c p IH]; intros s; simpl.
  - split; [intros _; exists s; reflexivity | intros _; reflexivity].
  - destruct s as [|d s]; simpl.
    + split; [discriminate | intros [r Hr]; discriminate].
    + destruct (Ascii.eqb c d) eqn:E.
      * apply Ascii.eqb_eq in E. subst d. rewrite IH.
        split; intros [r Hr]; exists r; congruence.
      * apply Ascii.eqb_neq in E.
        split; [discriminate | intros [r Hr]; congruence].
Qed.

Lemma append_nil_r (a : string) : a ++ "" = a.
Proof. induction a as [|x a IH]; simpl; [reflexivity | now rewrite IH]. Qed.

Lemma includes_spec (s p : string) :
  includes s p = true <-> exists before after, s = before ++ p ++ after.
Proof.
  split.
  - induction s as [|c s IH]; simpl; rewrite orb_true_iff; intros [H|H].
    + apply startsWith_spec in H. destruct H as [r Hr]. exists "", r. exact Hr.
    + discriminate.
    + apply startsWith_spec in H. destruct H as [r Hr]. exists "", r. exact Hr.
    + destruct (IH H) as (a & b & Hab). exists (String c a), b. simpl. now rewrite Hab.
  - intros (a & b & Hab). subst s.
    induction a as [|c a IH].
    + simpl. destruct (p ++ b) eqn:E; simpl; rewrite <- E;
        (replace (startsWith (p ++ b) p) with true;
         [reflexivity | symmetry; apply startsWith_spec; now exists b]).
    + simpl. rewrite IH. apply orb_true_r.
Qed.

Lemma trimStart_spec (s : string) :
  exists a, s = a ++ trimStart s /\ allWhiteSpace a = true /\
            forall c, first (trimStart s) = Some c -> isWhiteSpace c = false.
Proof.
  induction s as [|c s (a & Hs & Ha & Hf)]; simpl.
  - exists "". repeat split. discriminate.
  - destruct (isWhiteSpace c) eqn:E.
    + exists (String c a). simpl. rewrite E, Ha. repeat split; [congruence | exact Hf].
    + exists "". simpl. repeat split. intros d [= <-]. exact E.
Qed.

Lemma trimEnd_spec (s : string) :
  exists b, s = trimEnd s ++ b /\ allWhiteSpace b = true /\
            forall c, last (trimEnd s) = Some c -> isWhiteSpace c = false.
Proof.
  induction s as [|c s (b & Hs & Hb & Hl)]; simpl.
  - exists "". repeat split. discriminate.
  - destruct (trimEnd s) as [|d t] eqn:T; simpl in Hs.
    + destruct (isWhiteSpace c) eqn:E.
      * exists (String c b). simpl. rewrite E, Hb.
        repeat split; [congruence | discriminate].
      * exists b. simpl. repeat split; [congruence | exact Hb |].
        intros x [= <-]. exact E.
    + exists b. repeat split; [simpl; congruence | exact Hb |].
      intros x Hx. apply Hl. exact Hx.
Qed.

Lemma trimEnd_first (s : string) (c : ascii) :
  first s = Some c -> isWhiteSpace c = false -> first (trimEnd s) = Some c.
Proof.
  destruct s as [|d s]; simpl; [discriminate|].
  intros [= ->] E. destruct (trimEnd s); [rewrite E|]; reflexivity.
Qed.

(** [trim] cuts a run of white space off each end and leaves a string that
    neither starts nor ends with white space. *)
Lemma trim_spec (s : string) :
  exists a b, s = a ++ trim s ++ b /\
              allWhiteSpace a = true /\ allWhiteSpace b = true /\
              (forall c, first (trim s) = Some c -> isWhiteSpace c = false) /\
              (forall c, last (trim s) = Some c -> isWhiteSpace c = false).
Proof.
  unfold trim.
  destruct (trimStart_spec s) as (a & Hs & Ha & Hf).
  destruct (trimEnd_spec (trimStart s)) as (b & Ht & Hb & Hl).
  exists a, b. repeat split; try assumption.
  - rewrite <- Ht. exact Hs.
  - intros c Hc. destruct (first (trimStart s)) as [d|] eqn:F.
    + pose proof (Hf d eq_refl) as E.
      rewrite (trimEnd_first _ _ F E) in Hc. congruence.
    + destruct (trimStart s); [discriminate | discriminate].
Qed.

End StringFacts.

(** ** The access-log skip predicate *)

Section SkipPredicate.
Import Obj Log World HttpLogger.

Lemma skipRoutes_prefix (u : string) :
  existsb (fun route => JS.startsWith u route) skipRoutes = true <->
  exists route, In route skipRoutes /\ exists rest, u = route ++ rest.
Proof.
  rewrite existsb_exists. split; intros (route & Hin & H); exists route;
    (split; [exact Hin | now apply startsWith_spec]).
Qed.

Lemma shouldSkipLog_true (req : Request) (res : Response) :
  shouldSkipLog req res = true <-> skipCondition req res.
Proof.
  unfold shouldSkipLog, skipCondition.
  rewrite <- skipRoutes_prefix, <- includes_spec, <- Z.eqb_eq.
  destruct (existsb _ skipRoutes).
  - split; [now left | reflexivity].
  - destruct (JS.includes (url req) "health"), (statusCode res =? 200); simpl;
      split; try reflexivity; try discriminate; try (now right);
      intros [H | [H1 H2]]; discriminate.
Qed.

(** C2. The access-log skip predicate returns true if and only if the request
    URL starts with one of the exclusion-list entries ([/health], [/metrics],
    [/favicon.ico]), or the URL contains the substring [health] and the
    response status code is exactly 200; otherwise it returns false. *)
Theorem shouldSkipLog_iff (req : Request) (res : Response) :
  (shouldSkipLog req res = true <-> skipCondition req res) /\
  (shouldSkipLog req res = false <-> ~ skipCondition req res).
Proof.
  split; [apply shouldSkipLog_true|].
  rewrite <- shouldSkipLog_true.
  destruct (shouldSkipLog req res); split; intros H;
    try reflexivity; try discriminate; try congruence.
Qed.

(** What the request logger leaves in the logger once the response has
    finished. *)
Lemma httpLogger_emitted {J : Winston.Json}
    (compile : string -> Request -> Response -> string)
    (NODE_ENV : option string) (req res : loc) (w : world) :
  exists line,
    emitted (exec (httpLogger compile NODE_ENV req res) w) =
    if shouldSkipLog (requests w req) (responses w res) then emitted w
    else (emitted w ++ [mkLogCall http line None])%list.
Proof.
  unfold httpLogger, Morgan.logRequest, exec, bind, gets. simpl.
  destruct (shouldSkipLog (requests w req) (responses w res)).
  - exists "". reflexivity.
  - eexists. reflexivity.
Qed.

(** C1, counterexample. [/health] is a health-like path and 500 is not 200,
    yet the skip predicate returns true and nothing is emitted. *)
Lemma health_failure_is_skipped :
  JS.includes "/health" "health" = true /\
  statusCode (Sample.response 500) <> 200 /\
  shouldSkipLog (Sample.request "/health") (Sample.response 500) = true /\
  emitted (exec (httpLogger (J := MiniJson.runtime) Sample.compile None 0%nat 0%nat)
                (Sample.world "/health" 500)) = [].
Proof. repeat split; try reflexivity. simpl. discriminate. Qed.

(** C1, amended. For every request whose URL contains [health] and starts
    with none of the exclusion-list entries, a final status other than 200
    makes the skip predicate return false and exactly one access-log emission
    is produced, while a status of exactly 200 suppresses the emission. *)
Theorem health_like_logged_unless_200 {J : Winston.Json}
    (compile : string -> Request -> Response -> string)
    (NODE_ENV : option string) (req res : loc) (w : world) :
  JS.includes (url (requests w req)) "health" = true ->
  existsb (fun route => JS.startsWith (url (requests w req)) route) skipRoutes
    = false ->
  (statusCode (responses w res) <> 200 ->
   shouldSkipLog (requests w req) (responses w res) = false /\
   exists line,
     emitted (exec (httpLogger compile NODE_ENV req res) w) =
     (emitted w ++ [mkLogCall http line None])%list) /\
  (statusCode (responses w res) = 200 ->
   shouldSkipLog (requests w req) (responses w res) = true /\
   emitted (exec (httpLogger compile NODE_ENV req res) w) = emitted w).
Proof.
  intros Hinc Hpre.
  destruct (httpLogger_emitted compile NODE_ENV req res w) as [line Hline].
  assert (Hskip : shouldSkipLog (requests w req) (responses w res) =
                  (statusCode (responses w res) =? 200)).
  { unfold shouldSkipLog. rewrite Hpre, Hinc. simpl.
    now destruct (statusCode (responses w res) =? 200). }
  rewrite Hskip in *. split; intros Hs.
  - apply Z.eqb_neq in Hs. rewrite Hs in *. split; [reflexivity|].
    exists line. exact Hline.
  - apply Z.eqb_eq in Hs. rewrite Hs in *. split; [reflexivity | exact Hline].
Qed.

Lemma health_like_logged_unless_200_witness :
  shouldSkipLog (Sample.request "/api/health") (Sample.response 503) = false /\
  exists line,
    emitted (exec (httpLogger (J := MiniJson.runtime) Sample.compile None 0%nat 0%nat)
                  (Sample.world "/api/health" 503)) =
    [mkLogCall http line None].
Proof.
  apply (health_like_logged_unless_200 (J := MiniJson.runtime) Sample.compile
           None 0%nat 0%nat (Sample.world "/api/health" 503)).
  - reflexivity.
  - reflexivity.
  - simpl. discriminate.
Defined.

End SkipPredicate.

(** ** The stream adapter and the two auxiliary middlewares *)

Section Middlewares.
Import Obj Log World HttpLogger.

(** C8, counterexample. A line that starts with white space is emitted
    without it: the adapter does not emit the line with only its trailing
    white space trimmed. *)
Lemma leading_space_is_trimmed_too :
  JS.trimEnd " GET / 200 " = " GET / 200" /\
  emitted (exec (Logger.logStream_write " GET / 200 ") (Sample.world "/" 200))
    = [mkLogCall http "GET / 200" None] /\
  emitted (exec (Logger.logStream_write " GET / 200 ") (Sample.world "/" 200))
    <> [mkLogCall http (JS.trimEnd " GET / 200 ") None].
Proof. repeat split; try reflexivity. simpl. discriminate. Qed.

(** C8, amended. For every input string, [write(line)] emits exactly one
    record at the [http] severity into the logger, whose message is the line
    with the white space at both of its ends trimmed. *)
Theorem logStream_write_trims (line : string) (w : world) :
  Logger.logStream_write line w
    = (tt, emit (mkLogCall http (JS.trim line) None) w) /\
  emitted (exec (Logger.logStream_write line) w)
    = (emitted w ++ [mkLogCall http (JS.trim line) None])%list /\
  exists before after,
    line = before ++ JS.trim line ++ after /\
    JS.allWhiteSpace before = true /\ JS.allWhiteSpace after = true /\
    (forall c, JS.first (JS.trim line) = Some c -> JS.isWhiteSpace c = false) /\
    (forall c, JS.last (JS.trim line) = Some c -> JS.isWhiteSpace c = false).
Proof.
  split; [reflexivity|]. split; [reflexivity|]. apply trim_spec.
Qed.

(** C9. For every error object passed into the error channel, the
    error-forwarding middleware emits one error-severity record that holds
    the error's message, stack and name and the request's method, url,
    headers, query and body, and then calls the next handler with the very
    same error, which it has left as it was. *)
Theorem errorLogger_logs_and_forwards
    (err req res : loc) (next : loc -> M unit) (w : world) :
  let e := errors w err in
  let rq := requests w req in
  let record := mkLogCall error "Request error" (Some (requestErrorMeta e rq)) in
  errorLogger err req res next w = next err (emit record w) /\
  emitted (emit record w) = (emitted w ++ [record])%list /\
  errors (emit record w) = errors w /\
  get "error" (requestErrorMeta e rq)
    = Some (VObj [("message", err_message e); ("stack", err_stack e);
                  ("name", err_name e)]) /\
  exists request,
    get "request" (requestErrorMeta e rq) = Some (VObj request) /\
    get "method" request = Some (VStr (method rq)) /\
    get "url" request = Some (VStr (url rq)) /\
    get "headers" request = Some (headers rq) /\
    get "query" request = Some (query rq) /\
    get "body" request = Some (body rq).
Proof.
  intros e rq record. repeat split.
  eexists. repeat split.
Qed.

(** C10. The function that the verbose dumper installs as [res.end] calls
    the original [end] with the same chunk, encoding and callback on the same
    receiver and returns what it returns; all it adds before that call is one
    debug record. *)
Theorem detailedHttpLogger_preserves_end
    (extern : nat -> loc -> value -> value -> value -> M value)
    (req res : loc) (next : M unit) (w : world) :
  let originalEnd := end_ (responses w res) in
  let installed := DetailedEnd (clock w) req res originalEnd in
  let incoming :=
    mkLogCall debug "Incoming request" (Some (incomingMeta (requests w req))) in
  let w1 := assignEnd res installed (emit incoming w) in
  detailedHttpLogger req res next w = next w1 /\
  end_ (responses w1 res) = installed /\
  forall (this : loc) (chunk encoding callback : value) (w' : world),
    let outgoing :=
      mkLogCall debug "Outgoing response"
        (Some (outgoingMeta (requests w' req) (responses w' res)
                            (clock w' - clock w))) in
    callEnd extern installed this chunk encoding callback w' =
    callEnd extern originalEnd this chunk encoding callback (emit outgoing w').
Proof.
  intros originalEnd installed incoming w1. repeat split.
  unfold w1. simpl. now rewrite Nat.eqb_refl.
Qed.

(** X22. However many times the dumper has wrapped [res.end], a call reaches the
    function at the bottom of the chain with the receiver and the arguments
    of the call, after one debug record per wrapper and no other change to
    the world. *)
Lemma callEnd_reaches_innermost
    (extern : nat -> loc -> value -> value -> value -> M value)
    (f : EndFn) (this : loc) (chunk encoding callback : value) (w : world) :
  exists records,
    length records = wrappers f /\
    Forall (fun c => lc_level c = debug) records /\
    callEnd extern f this chunk encoding callback w =
    extern (innermost f) this chunk encoding callback
      (mkWorld (emitted w ++ records) (requests w) (responses w) (errors w)
               (clock w)).
Proof.
  revert w. induction f as [id | startTime req res originalEnd IH]; intros w.
  - exists []. repeat split; [constructor|].
    simpl. rewrite app_nil_r. now destruct w.
  - cbn [callEnd]. unfold bind, gets, Logger.logger_log, modify. simpl.
    match goal with |- context [emit ?c w] =>
      destruct (IH (emit c w)) as (records & Hlen & Hall & Hcall);
      exists (c :: records) end.
    repeat split.
    + simpl. now rewrite Hlen.
    + constructor; [reflexivity | exact Hall].
    + rewrite Hcall. simpl. now rewrite <- app_assoc.
Qed.

End Middlewares.

(** ** The configuration loader *)

Section ConfigLoader.
Import Config.

(** C5, counterexample. With [NODE_ENV=staging] and a [staging.js] that does
    not load, [loadConfig] does not fail: it returns the development
    configuration. *)
Lemma staging_failure_falls_back :
  Sample.require "./staging.js" = inl "Cannot find module ./staging.js" /\
  loadConfig _ Sample.require (Some "staging") =
    ([LoadingFor "staging"; Using "staging"; ErrorLoading "./staging.js";
      ErrorMessage "Cannot find module ./staging.js"; FallingBack],
     inr Sample.development).
Proof. split; reflexivity. Qed.

(** C5, amended. When the configuration file selected by the environment
    fails to load, [loadConfig] reports the error, falls back to
    [development.js] and returns what loading that file gives: a usable
    configuration when it loads, and a failure out of [loadConfig] only when
    it fails too. *)
Theorem loadConfig_falls_back (Conf : Type) (require : string -> string + Conf)
    (NODE_ENV : option string) (message : string) :
  let env := envOf NODE_ENV in
  let configFile := fst (selectConfig env) in
  require configFile = inl message ->
  loadConfig Conf require NODE_ENV =
    ([LoadingFor env; Using (snd (selectConfig env)); ErrorLoading configFile;
      ErrorMessage message; FallingBack],
     require "./development.js").
Proof.
  intros env configFile Hfail. unfold loadConfig. fold env.
  unfold configFile in Hfail.
  destruct (selectConfig env) as [file name]. simpl in *.
  now rewrite Hfail.
Qed.

Lemma loadConfig_falls_back_witness :
  loadConfig _ Sample.require (Some "Staging") =
    ([LoadingFor "Staging"; Using "staging"; ErrorLoading "./staging.js";
      ErrorMessage "Cannot find module ./staging.js"; FallingBack],
     inr Sample.development).
Proof.
  apply (loadConfig_falls_back _ Sample.require (Some "Staging")
           "Cannot find module ./staging.js").
  reflexivity.
Defined.

(** When the selected file loads, its configuration is returned. *)
Lemma loadConfig_loads (Conf : Type) (require : string -> string + Conf)
    (NODE_ENV : option string) (config : Conf) :
  require (fst (selectConfig (envOf NODE_ENV))) = inr config ->
  snd (loadConfig Conf require NODE_ENV) = inr config.
Proof.
  intros Hload. unfold loadConfig.
  destruct (selectConfig (envOf NODE_ENV)) as [file name]. simpl in *.
  now rewrite Hload.
Qed.

End ConfigLoader.

(** ** Objects *)

Section ObjectFacts.
Import Obj.

Lemma get_set_eq (k : string) (v : value) (o : obj) :
  get k (set k v o) = Some v.
Proof.
  induction o as [|[k' v'] o IH]; simpl.
  - now rewrite String.eqb_refl.
  - destruct (String.eqb k k') eqn:E; simpl.
    + now rewrite String.eqb_refl.
    + now rewrite E.
Qed.

Lemma get_set_ne (k k' : string) (v : value) (o : obj) :
  k' <> k -> get k' (set k v o) = get k' o.
Proof.
  intros Hne. apply String.eqb_neq in Hne.
  induction o as [|[k0 v0] o IH]; simpl.
  - now rewrite Hne.
  - destruct (String.eqb k k0) eqn:E; simpl.
    + apply String.eqb_eq in E. subst k0. now rewrite Hne.
    + now rewrite IH.
Qed.

Lemma prop_set_eq (k : string) (v : value) (o : obj) : prop k (set k v o) = v.
Proof. unfold prop. now rewrite get_set_eq. Qed.

Lemma prop_set_ne (k k' : string) (v : value) (o : obj) :
  k' <> k -> prop k' (set k v o) = prop k' o.
Proof. intros Hne. unfold prop. now rewrite get_set_ne. Qed.

(** Writing a property that the destructuring takes out leaves the rest as
    it was. *)
Lemma omit_set (ks : list string) (k : string) (v : value) (o : obj) :
  mem k ks = true -> omit ks (set k v o) = omit ks o.
Proof.
  intros Hk. induction o as [|[k' v'] o IH]; simpl.
  - now rewrite Hk.
  - destruct (String.eqb k k') eqn:E; simpl.
    + apply String.eqb_eq in E. subst k'. now rewrite Hk.
    + now rewrite IH.
Qed.

End ObjectFacts.

(** ** The formats of the logger *)

Section Formats.
Import Obj Log Winston Logger.
Context {J : Json}.

(** The mask of the base format prints the six fields of the clock reading,
    zero-padded, down to the second. *)
Lemma timestamp_mask (d : DateTime) :
  fechaFormat d "YYYY-MM-DD HH:mm:ss" =
  pad (year d) 4 ++ "-" ++ pad (month d) 2 ++ "-" ++ pad (day d) 2 ++ " " ++
  pad (hours d) 2 ++ ":" ++ pad (minutes d) 2 ++ ":" ++ pad (seconds d) 2.
Proof.
  unfold fechaFormat. cbn [fechaFrom JS.startsWith Ascii.eqb Bool.eqb].
  now rewrite append_nil_r.
Qed.

Lemma fileFormat_line (ctx : Ctx) (i : Info) :
  MESSAGE (fileFormat ctx i) =
  Some (stableStringify (VObj (set "timestamp" (stamp ctx) (props i)))).
Proof. reflexivity. Qed.

End Formats.

(** ** File destinations *)

Section FileDestinations.
Import Obj Log Winston Logger.
Context {J : Json}.

(** Every transport that [createLogger] gives a file uses [fileFormat],
    whatever the configured console format is. *)
Lemma file_transports_use_fileFormat
    (logging : option LoggingConfig) (env : ProcessEnv) (t : Transport) :
  let lg := createLogger logging env in
  In t (transports lg ++ exceptionHandlers lg ++ rejectionHandlers lg) ->
  transportFile t <> None ->
  transportFormat t = fileFormat.
Proof.
  intros lg Hin Hfile. unfold lg, createLogger in Hin. simpl in Hin.
  rewrite !in_app_iff in Hin.
  destruct Hin as [[Hc | Hf] | Hh].
  - destruct (_ || _); simpl in Hc; [|contradiction].
    destruct Hc as [<- | []]. simpl in Hfile. congruence.
  - simpl in Hf. destruct Hf as [<- | [<- | []]]; reflexivity.
  - simpl in Hh. destruct Hh as [<- | [<- | []]]; reflexivity.
Qed.

End FileDestinations.

(** ** Reading back what the JSON formats write *)

Section JsonFacts.
Import Obj MiniJson.

(** Induction on a value together with the values inside it. *)
Lemma value_nested_ind (P : value -> Prop) :
  P VUndefined -> P VNull -> (forall b, P (VBool b)) -> (forall n, P (VNum n)) ->
  (forall s, P (VStr s)) ->
  (forall xs, Forall P xs -> P (VArr xs)) ->
  (forall fs, Forall (fun kv => P (snd kv)) fs -> P (VObj fs)) ->
  forall v, P v.
Proof.
  intros Hu Hn Hb Hz Hs Ha Ho. fix IH 1. intros [| |b|n|s|xs|fs].
  - exact Hu.
  - exact Hn.
  - apply Hb.
  - apply Hz.
  - apply Hs.
  - apply Ha. induction xs as [|x xs IHxs]; constructor; [apply IH | exact IHxs].
  - apply Ho. induction fs as [|[k x] fs IHfs]; constructor; [apply IH | exact IHfs].
Qed.

Lemma append_assoc (a b c : string) : (a ++ b) ++ c = a ++ (b ++ c).
Proof. induction a as [|x a IH]; simpl; [reflexivity | now rewrite IH]. Qed.

Lemma length_append (a b : string) :
  String.length (a ++ b) = (String.length a + String.length b)%nat.
Proof. induction a as [|x a IH]; simpl; [reflexivity | now rewrite IH]. Qed.

(** A string literal reads back as the string it was written from. *)
Lemma parseChars_escape (s rest : string) :
  parseChars false (escape s ++ QUOTE ++ rest) = Some (s, rest).
Proof.
  induction s as [|c s IH].
  - reflexivity.
  - cbn [escape]. rewrite append_assoc.
    simpl in IH |- *.
    destruct c as [[] [] [] [] [] [] [] []];
      match goal with |- context [escapeChar ?c] =>
        let e := eval vm_compute in (escapeChar c) in
        change (escapeChar c) with e
      end;
      simpl; rewrite IH; reflexivity.
Qed.

Lemma spanDigits_uint (d : Decimal.uint) (rest : string) :
  startsDigit rest = false ->
  spanDigits (NilEmpty.string_of_uint d ++ rest)
  = (NilEmpty.string_of_uint d, rest).
Proof.
  intros Hrest. induction d as [|d IH|d IH|d IH|d IH|d IH|d IH|d IH|d IH|d IH|d IH];
    simpl; try (rewrite IH; reflexivity).
  destruct rest as [|c rest]; [reflexivity|].
  simpl in Hrest |- *. now rewrite Hrest.
Qed.

Lemma to_uint_no_leading_zero (p : positive) (d : Decimal.uint) :
  Pos.to_uint p <> Decimal.D0 d.
Proof.
  intros E.
  assert (Hn : Pos.to_uint p = Decimal.unorm (Pos.to_uint p)).
  { rewrite <- DecimalPos.Unsigned.to_of, DecimalPos.Unsigned.of_to.
    reflexivity. }
  unfold Decimal.unorm in Hn.
  destruct (Decimal.nzhead (Pos.to_uint p)) eqn:Hz;
    try (rewrite E in Hn; discriminate).
  - now apply (DecimalPos.Unsigned.to_uint_nonzero p).
  - now apply (DecimalFacts.nzhead_nonzero (Pos.to_uint p) u).
Qed.

Lemma parseNumber_uint (d : Decimal.uint) (rest : string) :
  d <> Decimal.Nil -> (forall d', d = Decimal.D0 d' -> d' = Decimal.Nil) ->
  startsDigit rest = false ->
  parseNumber (NilEmpty.string_of_uint d ++ rest)
  = Some (VNum (Z.of_int (Decimal.Pos d)), rest) /\
  parseNumber (String "-" (NilEmpty.string_of_uint d ++ rest))
  = Some (VNum (Z.of_int (Decimal.Neg d)), rest).
Proof.
  intros Hnil Hzero Hrest.
  pose proof (NilZero.isi (Decimal.Pos d)) as Hpos.
  pose proof (NilZero.isi (Decimal.Neg d)) as Hneg.
  pose proof (spanDigits_uint d rest Hrest) as Hspan.
  assert (Hp : NilZero.int_of_string (NilEmpty.string_of_uint d)
               = Some (Decimal.Pos d)).
  { rewrite <- Hpos by congruence. destruct d; try reflexivity. congruence. }
  assert (Hn : NilZero.int_of_string (String "-" (NilEmpty.string_of_uint d))
               = Some (Decimal.Neg d)).
  { rewrite <- Hneg by congruence. destruct d; try reflexivity. congruence. }
  clear Hpos Hneg.
  destruct d as [|d|d|d|d|d|d|d|d|d|d]; [congruence | ..].
  1: rewrite (Hzero d eq_refl) in *.
  all: split; unfold parseNumber;
    cbn [NilEmpty.string_of_uint append Ascii.eqb Bool.eqb] in *;
    rewrite Hspan; cbn [append]; first [rewrite Hp | rewrite Hn]; reflexivity.
Qed.

(** An integer reads back from its decimal text when no digit follows. *)
Lemma parseNumber_ofZ (n : Z) (rest : string) :
  startsDigit rest = false ->
  parseNumber (ofZ n ++ rest) = Some (VNum n, rest).
Proof.
  intros Hrest. unfold ofZ.
  rewrite <- (DecimalZ.of_to n) at 2.
  destruct n as [|p|p]; cbn [Z.to_int NilZero.string_of_int].
  - apply (parseNumber_uint (Decimal.D0 Decimal.Nil) rest); try assumption.
    + discriminate.
    + intros d' E. now injection E as <-.
  - pose proof (DecimalPos.Unsigned.to_uint_nonnil p) as Hnil.
    pose proof (to_uint_no_leading_zero p) as Hzero.
    replace (NilZero.string_of_uint (Pos.to_uint p))
      with (NilEmpty.string_of_uint (Pos.to_uint p))
      by (destruct (Pos.to_uint p); try reflexivity; congruence).
    apply parseNumber_uint; try assumption.
    intros d' E. exfalso. now apply (Hzero d').
  - pose proof (DecimalPos.Unsigned.to_uint_nonnil p) as Hnil.
    pose proof (to_uint_no_leading_zero p) as Hzero.
    replace (NilZero.string_of_uint (Pos.to_uint p))
      with (NilEmpty.string_of_uint (Pos.to_uint p))
      by (destruct (Pos.to_uint p); try reflexivity; congruence).
    apply parseNumber_uint; try assumption.
    intros d' E. exfalso. now apply (Hzero d').
Qed.

Lemma uint_head (d : Decimal.uint) :
  d <> Decimal.Nil ->
  exists c s, NilEmpty.string_of_uint d = String c s /\ isDigit c = true.
Proof.
  intros Hnil. destruct d; [congruence | ..]; simpl; eauto.
Qed.

(** The text of a number starts with a digit or a minus sign. *)
Lemma ofZ_head (n : Z) :
  exists c s, ofZ n = String c s /\
              (isDigit c || Ascii.eqb c "-") = true /\ isSpace c = false.
Proof.
  assert (Hd : forall c, isDigit c = true ->
                 (isDigit c || Ascii.eqb c "-") = true /\ isSpace c = false).
  { intros c Hc. rewrite Hc. split; [reflexivity|].
    destruct c as [[] [] [] [] [] [] [] []]; try discriminate; reflexivity. }
  unfold ofZ. destruct n as [|p|p]; cbn [Z.to_int NilZero.string_of_int].
  - exists "0"%char, "". repeat split.
  - pose proof (DecimalPos.Unsigned.to_uint_nonnil p) as Hnil.
    destruct (uint_head _ Hnil) as (c & s & E & Hc).
    exists c, s. split; [|now apply Hd].
    rewrite <- E. destruct (Pos.to_uint p); try reflexivity. congruence.
  - exists "-"%char, (NilZero.string_of_uint (Pos.to_uint p)). repeat split.
Qed.

(** The first character of a printed value is no white space and closes
    neither an array nor an object. *)
Lemma compact_head (v : value) :
  exists c s, compact v = String c s /\ isSpace c = false /\
              Ascii.eqb c "]" = false /\ Ascii.eqb c "}" = false.
Proof.
  destruct v as [| |[]|n|s|xs|fs]; try (do 2 eexists; repeat split; fail).
  destruct (ofZ_head n) as (c & s & E & Hc & Hsp).
  exists c, s. cbn [compact]. repeat split; try assumption.
  - destruct c as [[] [] [] [] [] [] [] []]; try discriminate; reflexivity.
  - destruct c as [[] [] [] [] [] [] [] []]; try discriminate; reflexivity.
Qed.

Lemma skipWs_head (c : ascii) (s : string) :
  isSpace c = false -> skipWs (String c s) = String c s.
Proof. intros H. simpl. now rewrite H. Qed.

Lemma append_cons (c : ascii) (a b : string) :
  String c a ++ b = String c (a ++ b).
Proof. reflexivity. Qed.

Lemma parseItems_compact (xs : list value) :
  Forall readsBack xs -> xs <> [] ->
  forall fuel rest, (itemsSize xs <= fuel)%nat ->
    parseItems fuel (joinComma (map compact xs) ++ "]" ++ rest)
    = Some (xs, rest).
Proof.
  induction 1 as [|x xs Hx Hxs IH]; [congruence|]. intros _ fuel rest Hfuel.
  destruct fuel as [|f]; [simpl in Hfuel; lia|].
  cbn [itemsSize fold_right] in Hfuel. fold (itemsSize xs) in Hfuel.
  destruct xs as [|y xs].
  - cbn [map joinComma]. cbn [parseItems].
    rewrite Hx by (try reflexivity; lia). reflexivity.
  - change (joinComma (map compact (x :: y :: xs)))
      with (compact x ++ "," ++ joinComma (map compact (y :: xs))).
    rewrite !append_assoc. cbn [parseItems].
    rewrite Hx by (try reflexivity; lia).
    rewrite append_cons, skipWs_head by reflexivity.
    cbn [Ascii.eqb Bool.eqb]. change ("" ++ ?s) with s.
    rewrite IH by (try discriminate; lia). reflexivity.
Qed.

Lemma parseMembers_compact (fs : obj) :
  Forall (fun kv => readsBack (snd kv)) fs -> fs <> [] ->
  forall fuel rest, (membersSize fs <= fuel)%nat ->
    parseMembers fuel (joinComma (map member fs) ++ "}" ++ rest)
    = Some (fs, rest).
Proof.
  induction 1 as [|[k x] fs Hx Hfs IH]; [congruence|]. intros _ fuel rest Hfuel.
  destruct fuel as [|f]; [simpl in Hfuel; lia|].
  cbn [membersSize fold_right] in Hfuel. fold (membersSize fs) in Hfuel.
  cbn [snd] in Hx.
  assert (Hkey : forall tail,
            skipWs (member (k, x) ++ tail)
            = String (ascii_of_nat 34)
                (escape k ++ QUOTE ++ ":" ++ compact x ++ tail)).
  { intros tail. unfold member, quote. cbn [fst snd].
    rewrite !append_assoc. reflexivity. }
  destruct fs as [|kv fs].
  - cbn [map joinComma]. cbn [parseMembers].
    rewrite Hkey. cbn [Ascii.eqb Bool.eqb].
    rewrite parseChars_escape.
    rewrite append_cons, skipWs_head by reflexivity.
    cbn [Ascii.eqb Bool.eqb]. change ("" ++ ?s) with s.
    rewrite Hx by (try reflexivity; lia). reflexivity.
  - change (joinComma (map member ((k, x) :: kv :: fs)))
      with (member (k, x) ++ "," ++ joinComma (map member (kv :: fs))).
    rewrite !append_assoc. cbn [parseMembers].
    rewrite Hkey. cbn [Ascii.eqb Bool.eqb].
    rewrite parseChars_escape.
    rewrite append_cons, skipWs_head by reflexivity.
    cbn [Ascii.eqb Bool.eqb]. change ("" ++ ?s) with s.
    rewrite Hx by (try reflexivity; lia).
    rewrite append_cons, skipWs_head by reflexivity.
    cbn [Ascii.eqb Bool.eqb]. change ("" ++ ?s) with s.
    rewrite IH by (try discriminate; lia). reflexivity.
Qed.

(** Without [undefined] values, every field of an object is printed. *)
Lemma members_serializable (fs : obj) :
  forallb (fun kv : string * value => let (_, x) := kv in serializable x) fs
  = true ->
  flat_map (fun kv : string * value =>
              let (k, x) := kv in
              match x with
              | VUndefined => []
              | _ => [quote k ++ ":" ++ compact x]
              end) fs
  = map member fs.
Proof.
  induction fs as [|[k x] fs IH]; [reflexivity|].
  cbn [forallb flat_map map]. intros H. apply andb_prop in H as [Hx Hfs].
  rewrite IH by exact Hfs. destruct x; try reflexivity. discriminate.
Qed.

Lemma parseValue_string (f : nat) (t : string) :
  parseValue (S f) (String (ascii_of_nat 34) t)
  = match parseChars false t with
    | Some (s, rest) => Some (VStr s, rest)
    | None => None
    end.
Proof. reflexivity. Qed.

Lemma parseValue_array (f : nat) (c : ascii) (t : string) :
  isSpace c = false -> Ascii.eqb c "]" = false ->
  parseValue (S f) (String "[" (String c t))
  = match parseItems f (String c t) with
    | Some (xs, rest) => Some (VArr xs, rest)
    | None => None
    end.
Proof.
  intros Hsp Hc. cbn [parseValue].
  rewrite (skipWs_head "["%char) by reflexivity.
  cbn [isDigit nat_of_ascii Ascii.eqb Bool.eqb orb Nat.leb andb].
  change (isDigit "[" || false) with false. cbv iota.
  now rewrite skipWs_head, Hc by exact Hsp.
Qed.

Lemma parseValue_object (f : nat) (t : string) :
  parseValue (S f) (String "{" (String (ascii_of_nat 34) t))
  = match parseMembers f (String (ascii_of_nat 34) t) with
    | Some (fs, rest) => Some (VObj fs, rest)
    | None => None
    end.
Proof. reflexivity. Qed.

(** The parser reads back every printed value that holds no [undefined]. *)
Lemma parseValue_compact (v : value) :
  serializable v = true -> readsBack v.
Proof.
  induction v as [| |b|n|s|xs IH|fs IH] using value_nested_ind;
    intros Hs fuel rest Hfuel Hrest;
    (destruct fuel as [|f]; [simpl in Hfuel; lia|]).
  - discriminate.
  - reflexivity.
  - destruct b; reflexivity.
  - destruct (ofZ_head n) as (c & s & E & Hc & Hsp).
    cbn [parseValue compact]. rewrite E, append_cons, skipWs_head by exact Hsp.
    rewrite Hc, <- append_cons, <- E. now apply parseNumber_ofZ.
  - cbn [compact]. unfold quote. rewrite !append_assoc.
    change (QUOTE ++ ?t) with (String (ascii_of_nat 34) t).
    rewrite parseValue_string.
    change (String (ascii_of_nat 34) rest) with (QUOTE ++ rest).
    now rewrite parseChars_escape.
  - cbn [serializable] in Hs. cbn [size] in Hfuel. fold (itemsSize xs) in Hfuel.
    assert (Hall : Forall readsBack xs).
    { rewrite Forall_forall in IH |- *. intros x Hin. apply IH; [exact Hin|].
      rewrite forallb_forall in Hs. now apply Hs. }
    cbn [compact]. rewrite !append_assoc.
    destruct xs as [|x xs]; [reflexivity|].
    destruct (compact_head x) as (c & s & E & Hsp & Hb & _).
    pose proof (parseItems_compact (x :: xs) Hall ltac:(discriminate) f rest
                  ltac:(lia)) as Hitems.
    assert (Hhead : exists t, joinComma (map compact (x :: xs)) = String c t).
    { cbn [map]. destruct (map compact xs); cbn [joinComma]; rewrite E;
        eexists; reflexivity. }
    destruct Hhead as (t & Ht). rewrite Ht in Hitems |- *.
    cbn [append] in Hitems |- *.
    rewrite parseValue_array by assumption.
    now rewrite Hitems.
  - cbn [serializable] in Hs. cbn [size] in Hfuel.
    fold (membersSize fs) in Hfuel.
    assert (Hall : Forall (fun kv => readsBack (snd kv)) fs).
    { rewrite Forall_forall in IH |- *. intros [k x] Hin.
      apply (IH (k, x) Hin). rewrite forallb_forall in Hs.
      now apply (Hs (k, x)). }
    cbn [compact]. rewrite members_serializable by exact Hs.
    rewrite !append_assoc.
    destruct fs as [|[k x] fs]; [reflexivity|].
    pose proof (parseMembers_compact ((k, x) :: fs) Hall ltac:(discriminate)
                  f rest ltac:(lia)) as Hmembers.
    assert (Hhead : exists t, joinComma (map member ((k, x) :: fs))
                              = String (ascii_of_nat 34) t).
    { cbn [map]. destruct (map member fs); cbn [joinComma]; unfold member, quote;
        cbn [fst]; rewrite ?append_assoc; eexists; reflexivity. }
    destruct Hhead as (t & Ht). rewrite Ht in Hmembers |- *.
    cbn [append] in Hmembers |- *.
    rewrite parseValue_object.
    now rewrite Hmembers.
Qed.

Lemma itemsSize_length (xs : list value) :
  Forall (fun x => (size x <= String.length (compact x))%nat) xs ->
  (itemsSize xs <= S (String.length (joinComma (map compact xs))))%nat.
Proof.
  induction 1 as [|x xs Hx Hxs IH]; [simpl; lia|].
  cbn [itemsSize fold_right]. fold (itemsSize xs).
  destruct xs as [|y xs].
  - cbn [map joinComma itemsSize fold_right]. lia.
  - change (joinComma (map compact (x :: y :: xs)))
      with (compact x ++ "," ++ joinComma (map compact (y :: xs))).
    rewrite !length_append. cbn [String.length]. lia.
Qed.

Lemma membersSize_length (fs : obj) :
  Forall (fun kv => (size (snd kv) <= String.length (compact (snd kv)))%nat) fs ->
  (membersSize fs <= S (String.length (joinComma (map member fs))))%nat.
Proof.
  induction 1 as [|[k x] fs Hx Hfs IH]; [simpl; lia|].
  cbn [membersSize fold_right]. fold (membersSize fs). cbn [snd] in Hx.
  assert (Hm : (size x + 3 <= String.length (member (k, x)))%nat).
  { unfold member, quote. cbn [fst snd]. rewrite !length_append.
    cbn [String.length QUOTE]. lia. }
  destruct fs as [|kv fs].
  - cbn [map joinComma membersSize fold_right]. lia.
  - change (joinComma (map member ((k, x) :: kv :: fs)))
      with (member (k, x) ++ "," ++ joinComma (map member (kv :: fs))).
    rewrite !length_append. cbn [String.length]. lia.
Qed.

(** The text of a value is at least as long as the value has nodes. *)
Lemma size_length (v : value) :
  serializable v = true -> (size v <= String.length (compact v))%nat.
Proof.
  induction v as [| |b|n|s|xs IH|fs IH] using value_nested_ind; intros Hs.
  - discriminate.
  - simpl. lia.
  - destruct b; simpl; lia.
  - destruct (ofZ_head n) as (c & s & E & _). cbn [compact size].
    rewrite E. simpl. lia.
  - cbn [compact size]. unfold quote. rewrite !length_append. simpl. lia.
  - cbn [serializable] in Hs. cbn [size compact]. fold (itemsSize xs).
    rewrite !length_append. cbn [String.length].
    assert (Hall : Forall (fun x => (size x <= String.length (compact x))%nat) xs).
    { rewrite Forall_forall in IH |- *. intros x Hin. apply IH; [exact Hin|].
      rewrite forallb_forall in Hs. now apply Hs. }
    pose proof (itemsSize_length xs Hall). lia.
  - cbn [serializable] in Hs. cbn [size compact]. fold (membersSize fs).
    rewrite members_serializable by exact Hs.
    rewrite !length_append. cbn [String.length].
    assert (Hall : Forall (fun kv => (size (snd kv)
                             <= String.length (compact (snd kv)))%nat) fs).
    { rewrite Forall_forall in IH |- *. intros [k x] Hin.
      apply (IH (k, x) Hin). rewrite forallb_forall in Hs.
      now apply (Hs (k, x)). }
    pose proof (membersSize_length fs Hall). lia.
Qed.

(** [JSON.parse] gives back every value printed without [undefined]. *)
Lemma parseText_compact (v : value) :
  serializable v = true -> parseText (compact v) = Some v.
Proof.
  intros Hs. unfold parseText.
  pose proof (parseValue_compact v Hs (S (String.length (compact v))) ""
                ltac:(pose proof (size_length v Hs); lia) eq_refl) as H.
  rewrite append_nil_r in H. now rewrite H.
Qed.

Lemma ltb_irrefl (s : string) : String.ltb s s = false.
Proof.
  unfold String.ltb.
  destruct (String.compare s s) eqn:E; try reflexivity.
  pose proof (String.compare_antisym s s) as H. rewrite E in H. discriminate.
Qed.

Lemma get_insertField (k : string) (kv : string * value) (l : obj) :
  get k (insertField kv l)
  = if String.eqb k (fst kv) then Some (snd kv) else get k l.
Proof.
  destruct kv as [k0 v0]. cbn [fst snd].
  induction l as [|[k1 v1] l IH]; cbn [insertField get fst]; [reflexivity|].
  destruct (String.ltb k1 k0) eqn:Hlt; cbn [get]; [|reflexivity].
  rewrite IH. destruct (String.eqb k k1) eqn:E1; [|reflexivity].
  apply String.eqb_eq in E1. subst k1.
  destruct (String.eqb k k0) eqn:E0; [|reflexivity].
  apply String.eqb_eq in E0. subst k0. rewrite ltb_irrefl in Hlt. discriminate.
Qed.

(** Sorting the fields of an object changes the value of no key. *)
Lemma get_sortFields (k : string) (l : obj) : get k (sortFields l) = get k l.
Proof.
  induction l as [|[k0 v0] l IH]; [reflexivity|].
  cbn [sortFields fold_right]. fold (sortFields l).
  rewrite get_insertField, IH. reflexivity.
Qed.

Lemma get_map_sortKeys (k : string) (l : obj) :
  get k (map (fun kv : string * value => let (k, x) := kv in (k, sortKeys x)) l)
  = option_map sortKeys (get k l).
Proof.
  induction l as [|[k0 v0] l IH]; [reflexivity|].
  cbn [map get]. destruct (String.eqb k k0); [reflexivity | exact IH].
Qed.

Lemma forallb_insertField (P : string * value -> bool) (kv : string * value)
    (l : obj) :
  forallb P (insertField kv l) = P kv && forallb P l.
Proof.
  induction l as [|kv' l IH]; cbn [insertField forallb]; [reflexivity|].
  destruct (String.ltb (fst kv') (fst kv)); cbn [forallb]; [|reflexivity].
  rewrite IH. destruct (P kv), (P kv'); reflexivity.
Qed.

Lemma forallb_sortFields (P : string * value -> bool) (l : obj) :
  forallb P (sortFields l) = forallb P l.
Proof.
  induction l as [|kv l IH]; [reflexivity|].
  cbn [sortFields fold_right forallb]. fold (sortFields l).
  now rewrite forallb_insertField, IH.
Qed.

Lemma serializable_sortKeys (v : value) :
  serializable v = true -> serializable (sortKeys v) = true.
Proof.
  induction v as [| |b|n|s|xs IH|fs IH] using value_nested_ind; intros Hs;
    try exact Hs.
  - cbn [sortKeys serializable] in *. rewrite forallb_forall in Hs |- *.
    intros y Hy. apply in_map_iff in Hy as (x & <- & Hx).
    rewrite Forall_forall in IH. apply IH; [exact Hx | now apply Hs].
  - cbn [sortKeys serializable] in *. rewrite forallb_sortFields.
    rewrite forallb_forall in Hs |- *.
    intros [k y] Hy. apply in_map_iff in Hy as ([k' x] & E & Hx).
    injection E as <- <-.
    rewrite Forall_forall in IH. apply (IH (k', x) Hx). now apply (Hs (k', x)).
Qed.

End JsonFacts.

(** ** The console destination *)

Section ConsoleDestination.
Import Obj Log Winston Logger.
Context {J : Json}.

(** C7, amended. For every record rendered by the pretty console encoding,
    the output is [<timestamp> [<level>]: <TAB><message>]: the timestamp is
    the clock reading printed by the mask [YYYY-MM-DD HH:mm:ss], the level is
    painted in the color of its severity when colors are on, and [align()]
    has put a tab in front of the message. It is followed by a line feed and
    the two-space indented JSON of the remaining properties when there are
    some, and by nothing when there are none. *)
Theorem pretty_console_line
    (logging : option LoggingConfig) (ctx : Ctx) (i : Info) :
  let o := props i in
  let metadata := omit ["level"; "message"; "timestamp"] o in
  let head :=
    fechaFormat (ctx_now ctx) "YYYY-MM-DD HH:mm:ss" ++ " [" ++
    paint (ctx_colors ctx) (LEVEL i) (toString (prop "level" o)) ++ "]: " ++
    (TAB ++ toString (prop "message" o)) in
  cfg_format (logConfigOf logging) = "pretty" ->
  MESSAGE (consoleFormat (logConfigOf logging) ctx i) =
  Some (match metadata with
        | [] => head
        | _ => head ++ LF ++ stringify 2 (VObj metadata)
        end) /\
  fechaFormat (ctx_now ctx) "YYYY-MM-DD HH:mm:ss" =
  pad (year (ctx_now ctx)) 4 ++ "-" ++ pad (month (ctx_now ctx)) 2 ++ "-" ++
  pad (day (ctx_now ctx)) 2 ++ " " ++ pad (hours (ctx_now ctx)) 2 ++ ":" ++
  pad (minutes (ctx_now ctx)) 2 ++ ":" ++ pad (seconds (ctx_now ctx)) 2.
Proof.
  intros o metadata head Hpretty. split; [|apply timestamp_mask].
  unfold consoleFormat. rewrite Hpretty.
  cbn [String.eqb Ascii.eqb Bool.eqb combine fold_left baseFormat timestamp
       errors colorize align prettyFormat printf setProp setMESSAGE props
       LEVEL MESSAGE].
  unfold prettyTemplate.
  rewrite !omit_set by reflexivity.
  repeat first [rewrite prop_set_eq | rewrite prop_set_ne by discriminate].
  fold o. fold metadata. cbn [toString]. fold head.
  destruct metadata; reflexivity.
Qed.

End ConsoleDestination.

Lemma pretty_console_line_witness :
  Winston.MESSAGE
    (Logger.consoleFormat (J := MiniJson.runtime)
       (Logger.logConfigOf (Some Sample.development)) Sample.ctx Sample.startedPlain)
  = Some ("2025-12-13 09:05:07 [info]: " ++ Obj.TAB ++ "Server started").
Proof.
  apply (pretty_console_line (J := MiniJson.runtime) (Some Sample.development)
           Sample.ctx Sample.startedPlain).
  reflexivity.
Defined.

(** C7, counterexample. The console line of [logger.info('Server started')]
    under the development configuration is not
    [<timestamp> [info]: Server started]: a tab stands before the message,
    and on a terminal the level is wrapped in color codes. *)
Lemma console_line_has_tab_and_colors :
  Winston.MESSAGE
    (Logger.consoleFormat (J := MiniJson.runtime) Sample.development
       Sample.ctx Sample.startedPlain)
  <> Some "2025-12-13 09:05:07 [info]: Server started" /\
  Winston.MESSAGE
    (Logger.consoleFormat (J := MiniJson.runtime) Sample.development
       Sample.ctx Sample.startedPlain)
  = Some ("2025-12-13 09:05:07 [info]: " ++ Obj.TAB ++ "Server started") /\
  Winston.MESSAGE
    (Logger.consoleFormat (J := MiniJson.runtime) Sample.development
       Sample.ctxColors Sample.startedPlain)
  = Some ("2025-12-13 09:05:07 [" ++ Obj.ESC ++ "[32minfo" ++ Obj.ESC
          ++ "[39m]: " ++ Obj.TAB ++ "Server started").
Proof.
  split; [|split]; try reflexivity.
  vm_compute. discriminate.
Qed.

(** ** Routing by level *)

Section Routing.
Import Obj Log Winston Logger.
Context {J : Json}.

Lemma eqb_append_prefix (p a b : string) :
  String.eqb (p ++ a) (p ++ b) = String.eqb a b.
Proof.
  induction p as [|c p IH]; simpl; [reflexivity|].
  now rewrite Ascii.eqb_refl.
Qed.

Lemma path_join_eqb (dir a b : string) :
  String.eqb (path_join dir a) (path_join dir b) = String.eqb a b.
Proof. unfold path_join. rewrite eqb_append_prefix. simpl. reflexivity. Qed.

Lemma linesOf_app (f : string) (a b : list Written) :
  linesOf f (a ++ b) = (linesOf f a ++ linesOf f b)%list.
Proof. unfold linesOf. now rewrite filter_app, map_app. Qed.

Lemma write_rotatingFile (ctx : Ctx) (dir name : string)
    (c : LoggingConfig) (lvl : option string) (i : Info) :
  write ctx (rotatingFile dir name c lvl) i
  = [mkWritten (Some (path_join dir name)) (fileLine ctx i)].
Proof. reflexivity. Qed.

Lemma linesOf_console (f : string) (lg : Logger) (ctx : Ctx)
    (fmt : Format) (lvl : option string) (i : Info) :
  linesOf f (if accepts lg (Console fmt lvl) i
             then write ctx (Console fmt lvl) i else []) = [].
Proof.
  destruct (accepts lg (Console fmt lvl) i); [|reflexivity].
  unfold write. simpl. now destruct (MESSAGE (fmt ctx i)).
Qed.

Lemma linesOf_rotatingFile (lg : Logger) (ctx : Ctx) (dir name file : string)
    (c : LoggingConfig) (lvl : option string) (i : Info) :
  linesOf (path_join dir file)
    (if accepts lg (rotatingFile dir name c lvl) i
     then write ctx (rotatingFile dir name c lvl) i else [])
  = if accepts lg (rotatingFile dir name c lvl) i && String.eqb name file
    then [fileLine ctx i] else [].
Proof.
  destruct (accepts lg (rotatingFile dir name c lvl) i); [|reflexivity].
  rewrite write_rotatingFile. unfold linesOf. cbn [filter target andb].
  rewrite path_join_eqb. now destruct (String.eqb name file).
Qed.

(** What a record leaves in the file [dir/name] after passing through the
    logger: a line from the combined transport if it accepts the record and
    that is its file, and likewise from the error transport. *)
Lemma linesOf_logRecord
    (logging : option LoggingConfig) (env : ProcessEnv) (ctx : Ctx)
    (i : Info) (name : string) :
  let lg := createLogger logging env in
  let dir := logDirOf logging env in
  let c := logConfigOf logging in
  linesOf (path_join dir name) (logRecord lg ctx i) =
  ((if accepts lg (combinedTransport dir c) i
       && String.eqb "application-%DATE%.log" name
    then [fileLine ctx i] else []) ++
   (if accepts lg (errorTransport dir c) i
       && String.eqb "error-%DATE%.log" name
    then [fileLine ctx i] else []))%list.
Proof.
  intros lg dir c. unfold logRecord, lg, createLogger. cbn [transports].
  fold dir. fold c. fold lg.
  rewrite flat_map_app, linesOf_app.
  assert (Hconsole : forall ts : list Transport,
             (ts = [] \/ exists fmt lvl, ts = [Console fmt lvl]) ->
             linesOf (path_join dir name)
               (flat_map (fun t => if accepts lg t i then write ctx t i else []) ts)
             = []).
  { intros ts [-> | (fmt & lvl & ->)]; [reflexivity|].
    cbn [flat_map]. rewrite app_nil_r. apply linesOf_console. }
  rewrite Hconsole by (destruct (_ || _); [right; eauto | now left]).
  cbn [flat_map app]. rewrite app_nil_r, linesOf_app.
  unfold combinedTransport, errorTransport.
  now rewrite !linesOf_rotatingFile.
Qed.

(** With a minimum level that the level table knows, a transport receives
    the records whose level number is at most the number of that level. *)
Lemma accepts_known (lg : Logger) (t : Transport) (i : Info) (n : Z) :
  levelOfName (minimumLevel lg t) = Some n ->
  accepts lg t i = (levels (LEVEL i) <=? n).
Proof.
  intros Hn. unfold accepts.
  destruct (String.eqb (minimumLevel lg t) "") eqn:E.
  - apply String.eqb_eq in E. rewrite E in Hn. discriminate.
  - now rewrite Hn.
Qed.

(** The console and the combined transport take the configured level, and
    so does the logger: their minimum level is that level. *)
Lemma minimumLevel_configured (lg : Logger) (t : Transport) :
  transportLevel t = Some (level lg) -> minimumLevel lg t = level lg.
Proof.
  intros Ht. unfold minimumLevel. rewrite Ht.
  now destruct (String.eqb (level lg) "").
Qed.

Lemma accepts_error_level (lg : Logger) (dir : string) (c : LoggingConfig)
    (i : Info) :
  accepts lg (errorTransport dir c) i = true <-> LEVEL i = error.
Proof.
  unfold accepts. simpl. destruct (LEVEL i); simpl; split; intros H;
    try reflexivity; try discriminate.
Qed.

(** C4. A record whose severity lies strictly below the configured minimum
    level reaches neither the combined file nor the error-only file; the
    error-only transport has the fixed level [error] whatever the configured
    level is, so its file receives exactly the records of severity [error]. *)
Theorem below_minimum_not_written
    (logging : option LoggingConfig) (env : ProcessEnv) (ctx : Ctx) (i : Info) :
  let lg := createLogger logging env in
  let dir := logDirOf logging env in
  let c := logConfigOf logging in
  let combined := combinedTransport dir c in
  let errorOnly := errorTransport dir c in
  (In combined (transports lg) /\ In errorOnly (transports lg)) /\
  (forall n, levelOfName (cfg_level c) = Some n -> n < levels (LEVEL i) ->
     accepts lg combined i = false /\ accepts lg errorOnly i = false /\
     linesOf (fileOf combined) (logRecord lg ctx i) = [] /\
     linesOf (fileOf errorOnly) (logRecord lg ctx i) = []) /\
  transportLevel errorOnly = Some "error" /\
  minimumLevel lg errorOnly = "error" /\
  (accepts lg errorOnly i = true <-> LEVEL i = error) /\
  (LEVEL i = error ->
   linesOf (fileOf errorOnly) (logRecord lg ctx i) = [fileLine ctx i]) /\
  (LEVEL i <> error -> linesOf (fileOf errorOnly) (logRecord lg ctx i) = []).
Proof.
  intros lg dir c combined errorOnly.
  pose proof (linesOf_logRecord logging env ctx i) as Hlines.
  pose proof (accepts_error_level lg dir c i) as Herr.
  subst combined errorOnly c dir lg. cbv zeta in Hlines.
  split; [|split; [|split; [|split; [|split; [|split]]]]].
  - unfold createLogger. cbn [transports].
    split; apply in_or_app; right; simpl; auto.
  - intros n Hn Hlt.
    match goal with |- ?a = false /\ ?b = false /\ _ =>
      assert (Hc : a = false); [|assert (He : b = false)] end.
    { rewrite (accepts_known _ _ i n).
      - apply Z.leb_gt. exact Hlt.
      - rewrite minimumLevel_configured; [exact Hn | reflexivity]. }
    { apply not_true_is_false. intros E.
      apply Herr in E. rewrite E in Hlt. simpl in Hlt.
      assert (0 <= n).
      { unfold levelOfName in Hn.
        destruct (find _ allLevels) as [l|]; [|discriminate].
        injection Hn as <-. destruct l; simpl; lia. }
      lia. }
    repeat split; try assumption.
    + unfold combinedTransport at 1, fileOf, rotatingFile at 1.
      cbn [transportFile]. rewrite Hlines, Hc, He. reflexivity.
    + unfold errorTransport at 1, fileOf, rotatingFile at 1.
      cbn [transportFile]. rewrite Hlines, Hc, He. reflexivity.
  - reflexivity.
  - reflexivity.
  - exact Herr.
  - intros Hl. apply Herr in Hl.
    unfold errorTransport at 1, fileOf, rotatingFile at 1.
    cbn [transportFile]. rewrite Hlines, Hl.
    cbn [String.eqb Ascii.eqb Bool.eqb andb]. now rewrite andb_false_r.
  - intros Hl.
    unfold errorTransport at 1, fileOf, rotatingFile at 1.
    cbn [transportFile]. rewrite Hlines.
    cbn [String.eqb Ascii.eqb Bool.eqb andb]. rewrite andb_false_r.
    match goal with |- context [accepts ?l ?t i] =>
      replace (accepts l t i) with false; [reflexivity|] end.
    symmetry. apply not_true_is_false. intros E. now apply Herr in E.
Qed.

(** C6. Every uncaught exception leaves exactly one line in the exceptions
    file and every unhandled rejection exactly one in the rejections file,
    whatever level is configured: the two transports are given no level and
    the handlers compare none. A record that passes through the logger in the
    ordinary way never reaches either file. *)
Theorem faults_reach_their_files
    (logging : option LoggingConfig) (env : ProcessEnv) (ctx : Ctx)
    (message stack : value) :
  let lg := createLogger logging env in
  let dir := logDirOf logging env in
  let c := logConfigOf logging in
  let exceptions := exceptionsTransport dir c in
  let rejections := rejectionsTransport dir c in
  exceptionHandlers lg = [exceptions] /\
  rejectionHandlers lg = [rejections] /\
  transportLevel exceptions = None /\
  transportLevel rejections = None /\
  linesOf (fileOf exceptions) (uncaughtException lg ctx message stack)
    = [fileLine ctx (faultInfo "uncaughtException" "exception" message stack)] /\
  linesOf (fileOf rejections) (unhandledRejection lg ctx message stack)
    = [fileLine ctx (faultInfo "unhandledRejection" "rejection" message stack)] /\
  forall i,
    linesOf (fileOf exceptions) (logRecord lg ctx i) = [] /\
    linesOf (fileOf rejections) (logRecord lg ctx i) = [].
Proof.
  intros lg dir c exceptions rejections.
  repeat split.
  - unfold uncaughtException. cbn [exceptionHandlers lg createLogger flat_map].
    fold dir. fold c. unfold exceptionsTransport.
    rewrite write_rotatingFile, app_nil_r.
    unfold linesOf, fileOf. cbn [filter target transportFile rotatingFile].
    now rewrite String.eqb_refl.
  - unfold unhandledRejection. cbn [rejectionHandlers lg createLogger flat_map].
    fold dir. fold c. unfold rejectionsTransport.
    rewrite write_rotatingFile, app_nil_r.
    unfold linesOf, fileOf. cbn [filter target transportFile rotatingFile].
    now rewrite String.eqb_refl.
  - change (fileOf exceptions) with (path_join dir "exceptions-%DATE%.log").
    rewrite (linesOf_logRecord logging env ctx i).
    cbn [String.eqb Ascii.eqb Bool.eqb]. now rewrite !andb_false_r.
  - change (fileOf rejections) with (path_join dir "rejections-%DATE%.log").
    rewrite (linesOf_logRecord logging env ctx i).
    cbn [String.eqb Ascii.eqb Bool.eqb]. now rewrite !andb_false_r.
Qed.

End Routing.

(** Scenario A of the specification read under the production configuration
    (level [error]): the [info] record reaches neither file. *)
Lemma below_minimum_not_written_witness :
  let lg := Logger.createLogger (J := MiniJson.runtime)
              (Some Sample.production) Sample.env in
  Winston.linesOf "/srv/app/logs/application-%DATE%.log"
    (Winston.logRecord lg Sample.ctx Sample.started) = [] /\
  Winston.linesOf "/srv/app/logs/error-%DATE%.log"
    (Winston.logRecord lg Sample.ctx Sample.started) = [].
Proof.
  destruct (below_minimum_not_written (J := MiniJson.runtime)
              (Some Sample.production) Sample.env Sample.ctx Sample.started)
    as (_ & Hbelow & _).
  destruct (Hbelow 0 eq_refl ltac:(simpl; lia)) as (_ & _ & Hc & He).
  split; [exact Hc | exact He].
Defined.

(** ** The lines of the combined and the error-only file *)

Section FileLines.
Import Obj Log Winston Logger MiniJson.

Lemma serializable_set (k : string) (v : value) (o : obj) :
  MiniJson.serializable v = true ->
  MiniJson.serializable (VObj o) = true ->
  MiniJson.serializable (VObj (set k v o)) = true.
Proof.
  intros Hv. cbn [MiniJson.serializable].
  induction o as [|[k' v'] o IH]; cbn [set forallb]; intros Ho.
  - now rewrite Hv.
  - apply andb_prop in Ho as [Hv' Ho].
    destruct (String.eqb k k'); cbn [forallb].
    + now rewrite Hv, Ho.
    + now rewrite Hv', IH.
Qed.

(** The line that [fileFormat] writes for a record of JSON data parses to an
    object that holds the time of writing under [timestamp] and, under every
    other key, the value of the record with the keys of its objects put in
    order. *)
Lemma fileLine_parses (ctx : Ctx) (i : Info) :
  MiniJson.serializable (VObj (props i)) = true ->
  exists parsed,
    parse (Json := MiniJson.runtime) (fileLine (J := MiniJson.runtime) ctx i)
    = Some (VObj parsed) /\
    (forall k, k <> "timestamp" ->
       get k parsed = option_map MiniJson.sortKeys (get k (props i))) /\
    get "timestamp" parsed = Some (stamp ctx).
Proof.
  intros Hs.
  pose (written := set "timestamp" (stamp ctx) (props i)).
  assert (Hw : MiniJson.serializable (VObj written) = true).
  { apply serializable_set; [reflexivity | exact Hs]. }
  exists (MiniJson.sortFields
            (map (fun kv : string * value =>
                    let (k, x) := kv in (k, MiniJson.sortKeys x)) written)).
  split; [|split].
  - unfold fileLine. cbn [parse stableStringify MiniJson.runtime].
    fold written.
    now rewrite parseText_compact by (now apply serializable_sortKeys).
  - intros k Hk. rewrite get_sortFields, get_map_sortKeys.
    unfold written. now rewrite get_set_ne.
  - rewrite get_sortFields, get_map_sortKeys.
    unfold written. now rewrite get_set_eq.
Qed.



End FileLines.


(* ================================================================== *)
(** * Further properties of the code *)
(* ================================================================== *)

(** ** White space around an access-log line *)

Section TrimFacts.
Import JS.

Lemma trimStart_app_ws (a s : string) :
  allWhiteSpace a = true -> trimStart (a ++ s) = trimStart s.
Proof.
  induction a as [|c a IH]; simpl; [reflexivity|].
  intros H. apply andb_true_iff in H. destruct H as [Hc Ha].
  rewrite Hc. now apply IH.
Qed.

Lemma trimEnd_ws (b : string) : allWhiteSpace b = true -> trimEnd b = "".
Proof.
  induction b as [|c b IH]; simpl; [reflexivity|].
  intros H. apply andb_true_iff in H. destruct H as [Hc Hb].
  now rewrite IH, Hc.
Qed.

Lemma trimEnd_app_ws (s b : string) :
  allWhiteSpace b = true -> trimEnd (s ++ b) = trimEnd s.
Proof.
  intros Hb. induction s as [|c s IH]; simpl.
  - now apply trimEnd_ws.
  - now rewrite IH.
Qed.

Lemma trimStart_all (s : string) :
  allWhiteSpace s = true -> trimStart s = "".
Proof.
  induction s as [|c s IH]; simpl; [reflexivity|].
  intros H. apply andb_true_iff in H. destruct H as [Hc Hs].
  rewrite Hc. now apply IH.
Qed.

Lemma allWhiteSpace_app (a b : string) :
  allWhiteSpace (a ++ b) = allWhiteSpace a && allWhiteSpace b.
Proof.
  induction a as [|c a IH]; simpl; [reflexivity|].
  now rewrite IH, andb_assoc.
Qed.

Lemma trimStart_app_r (s b : string) :
  allWhiteSpace s = false -> trimStart (s ++ b) = trimStart s ++ b.
Proof.
  induction s as [|c s IH]; simpl; [discriminate|].
  destruct (isWhiteSpace c); simpl; [exact IH | reflexivity].
Qed.

(** White space on either side of a string does not change what [trim]
    gives. *)
Lemma trim_surrounded (a s b : string) :
  allWhiteSpace a = true -> allWhiteSpace b = true ->
  trim (a ++ s ++ b) = trim s.
Proof.
  intros Ha Hb. unfold trim. rewrite trimStart_app_ws by exact Ha.
  destruct (allWhiteSpace s) eqn:Hs.
  - rewrite (trimStart_all s Hs).
    rewrite trimStart_all; [reflexivity|].
    now rewrite allWhiteSpace_app, Hs, Hb.
  - rewrite trimStart_app_r by exact Hs. now apply trimEnd_app_ws.
Qed.

Lemma trim_idempotent (s : string) : trim (trim s) = trim s.
Proof.
  destruct (trim_spec s) as (a & b & Hs & Ha & Hb & _).
  rewrite Hs at 2. symmetry. now apply trim_surrounded.
Qed.

End TrimFacts.

Section StreamAdapter.
Import Obj Log World HttpLogger.

(** X1. [logStream.write] does not see white space around the line: with
    any run of white space before and after it, the same record is emitted.
    In particular writing an already trimmed line emits it as it is. *)
Theorem logStream_write_ignores_surrounding_space
    (before line after : string) (w : world) :
  JS.allWhiteSpace before = true -> JS.allWhiteSpace after = true ->
  Logger.logStream_write (before ++ line ++ after) w
    = Logger.logStream_write line w /\
  Logger.logStream_write (JS.trim line) w = Logger.logStream_write line w.
Proof.
  intros Ha Hb. unfold Logger.logStream_write.
  now rewrite trim_surrounded, trim_idempotent.
Qed.

Lemma logStream_write_ignores_surrounding_space_witness :
  Logger.logStream_write ("  " ++ "GET / 200" ++ LF) (Sample.world "/" 200)
    = Logger.logStream_write "GET / 200" (Sample.world "/" 200).
Proof.
  apply (logStream_write_ignores_surrounding_space "  " "GET / 200" LF);
    reflexivity.
Defined.

(** X2. The line feed that morgan appends to a line never reaches the
    logger: for a request that is not skipped, the one record emitted is the
    formatted line with the white space at its ends trimmed. *)
Theorem httpLogger_emits_trimmed_line {J : Winston.Json}
    (compile : string -> Request -> Response -> string)
    (NODE_ENV : option string) (req res : loc) (w : world) :
  shouldSkipLog (requests w req) (responses w res) = false ->
  emitted (exec (httpLogger compile NODE_ENV req res) w) =
  (emitted w ++
   [mkLogCall http
      (JS.trim (compile (AccessTokens.selectedFormat NODE_ENV)
                        (requests w req) (responses w res)))
      None])%list.
Proof.
  intros Hskip.
  unfold httpLogger, Morgan.logRequest, exec, bind, gets.
  cbn [snd fst]. rewrite Hskip. unfold Logger.logStream_write.
  unfold AccessTokens.selectedFormat.
  replace (JS.trim (compile _ (requests w req) (responses w res) ++ LF))
    with (JS.trim (compile
            match NODE_ENV with
            | Some "production" => prodFormat
            | _ => devFormat
            end (requests w req) (responses w res))).
  - reflexivity.
  - symmetry.
    rewrite <- (trim_surrounded "" (compile _ (requests w req) (responses w res)) LF)
      by reflexivity.
    reflexivity.
Qed.

Lemma httpLogger_emits_trimmed_line_witness :
  emitted (exec (httpLogger (J := MiniJson.runtime) Sample.compile None 0%nat 0%nat)
                (Sample.world "/api/users" 200))
  = [mkLogCall http "GET /api/users 200" None].
Proof.
  apply (httpLogger_emits_trimmed_line (J := MiniJson.runtime) Sample.compile
           None 0%nat 0%nat (Sample.world "/api/users" 200)).
  reflexivity.
Defined.

End StreamAdapter.

(** ** The morgan tokens and the skip predicate *)

Section TokensAndSkip.
Import Obj Log World HttpLogger AccessTokens.

Lemma orValue_truthy (a b : value) :
  truthy b = true -> truthy (orValue a b) = true.
Proof. intros Hb. unfold orValue. now destruct (truthy a) eqn:Ha. Qed.

(** X3. The three custom tokens never give an empty or missing value: each
    returns its first truthy source and otherwise its sentinel. [req.ip] wins
    over the socket address, [unknown] stands for neither; [-] stands for a
    missing request id and for a missing, non-object or id-less user. *)
Theorem tokens_fall_back_to_sentinels (r : TokenInput) :
  (truthy (realIp r) = true /\ truthy (requestId r) = true /\
   truthy (userId r) = true) /\
  (truthy (ip (request r)) = true -> realIp r = ip (request r)) /\
  (truthy (ip (request r)) = false -> truthy (remoteAddress r) = true ->
   realIp r = remoteAddress r) /\
  (truthy (ip (request r)) = false -> truthy (remoteAddress r) = false ->
   realIp r = VStr "unknown") /\
  (truthy (id r) = false -> requestId r = VStr "-") /\
  (truthy (optionalId (user r)) = false -> userId r = VStr "-") /\
  (user r = VUndefined \/ user r = VNull -> userId r = VStr "-").
Proof.
  unfold realIp, requestId, userId.
  repeat split; try (apply orValue_truthy; reflexivity).
  - intros H. unfold orValue. now rewrite H, H.
  - intros H1 H2. unfold orValue. now rewrite H1, H2.
  - intros H1 H2. unfold orValue. now rewrite H1, H2.
  - intros H. unfold orValue. now rewrite H.
  - intros H. unfold orValue. now rewrite H.
  - intros [-> | ->]; reflexivity.
Qed.

Lemma tokens_fall_back_to_sentinels_witness :
  realIp Scenario.visitor = VStr "10.0.0.7" /\
  requestId Scenario.visitor = VStr "-".
Proof.
  destruct (tokens_fall_back_to_sentinels Scenario.visitor)
    as (_ & _ & Hremote & _ & Hid & _).
  split; [apply Hremote | apply Hid]; reflexivity.
Defined.

End TokensAndSkip.

(** ** The verbose dumper, registered once or several times *)

Section Dumper.
Import Obj Log World HttpLogger AccessTokens.



(** X5. Registering the dumper [n] times on the same response stacks [n]
    closures on [res.end] without losing the function underneath: [next]
    runs on a world whose log is the old log followed by [n] records, each
    the debug record "Incoming request" with the fields of the request, and
    from then on every call of [res.end] passes through [n] more closures
    before it reaches the same innermost function. *)
Theorem stacked_dumpers_wrap_once_each
    (n : nat) (req res : loc) (next : M unit) (w : world) :
  exists w',
    stacked n req res next w = next w' /\
    emitted w'
      = (emitted w ++
         repeat (mkLogCall debug "Incoming request"
                   (Some (incomingMeta (requests w req)))) n)%list /\
    requests w' = requests w /\
    wrappers (end_ (responses w' res))
      = (n + wrappers (end_ (responses w res)))%nat /\
    innermost (end_ (responses w' res)) = innermost (end_ (responses w res)).
Proof.
  revert w. induction n as [|n IH]; intros w.
  - exists w. repeat split. simpl. now rewrite app_nil_r.
  - destruct (IH (assignEnd res
                    (DetailedEnd (clock w) req res (end_ (responses w res)))
                    (emit (mkLogCall debug "Incoming request"
                             (Some (incomingMeta (requests w req)))) w)))
      as (w' & Hnext & Hlog & Hreq & Hwrap & Hinner).
    exists w'. cbn [stacked].
    split; [exact Hnext|].
    simpl in Hlog, Hreq, Hwrap, Hinner. rewrite Nat.eqb_refl in Hwrap, Hinner.
    simpl in Hwrap, Hinner.
    repeat split.
    + rewrite Hlog, <- app_assoc. reflexivity.
    + exact Hreq.
    + rewrite Hwrap. lia.
    + exact Hinner.
Qed.

End Dumper.

(** ** The configuration loader over any configuration directory *)

Section LoaderFacts.
Import Config.

Variable Conf : Type.

Lemma selectConfig_cases (env : string) :
  let e := JS.toLowerCase env in
  (e = "production" /\ selectConfig env = ("./production.js", "production")) \/
  (e = "staging" /\ selectConfig env = ("./staging.js", "staging")) \/
  (e = "test" /\ selectConfig env = ("./test.js", "test")) \/
  (e <> "production" /\ e <> "staging" /\ e <> "test" /\
   selectConfig env = ("./development.js", "development")).
Proof.
  intros e. unfold selectConfig. fold e.
  destruct (String.eqb e "production") eqn:E1;
    [apply String.eqb_eq in E1; now left|].
  destruct (String.eqb e "staging") eqn:E2;
    [apply String.eqb_eq in E2; now right; left|].
  destruct (String.eqb e "test") eqn:E3;
    [apply String.eqb_eq in E3; now right; right; left|].
  right; right; right.
  apply String.eqb_neq in E1, E2, E3. now repeat split.
Qed.

(** X6. [loadConfig] reads one of four files and, on failure, [development.js];
    it never reads [default.js] or any other file: two configuration
    directories that agree on [production.js], [staging.js], [test.js] and
    [development.js] give the same result and the same printed lines for
    every [NODE_ENV]. *)
Theorem loadConfig_reads_only_environment_files
    (require require' : string -> string + Conf) (NODE_ENV : option string) :
  (forall file,
     In file ["./production.js"; "./staging.js"; "./test.js";
              "./development.js"] ->
     require file = require' file) ->
  loadConfig Conf require NODE_ENV = loadConfig Conf require' NODE_ENV /\
  fst (selectConfig (envOf NODE_ENV)) <> "./default.js".
Proof.
  intros Hagree. unfold loadConfig.
  destruct (selectConfig_cases (envOf NODE_ENV))
    as [[_ ->] | [[_ ->] | [[_ ->] | (_ & _ & _ & ->)]]];
    (split; [|discriminate]);
    (rewrite <- !Hagree by (simpl; auto)); reflexivity.
Qed.

End LoaderFacts.

Lemma loadConfig_reads_only_environment_files_witness :
  Config.loadConfig _ Sample.require (Some "test")
  = Config.loadConfig _
      (fun file => if String.eqb file "./default.js"
                   then inr Sample.production else Sample.require file)
      (Some "test").
Proof.
  apply (loadConfig_reads_only_environment_files _ Sample.require
           (fun file => if String.eqb file "./default.js"
                        then inr Sample.production else Sample.require file)
           (Some "test")).
  intros file Hin. simpl in Hin.
  destruct Hin as [<- | [<- | [<- | [<- | []]]]]; reflexivity.
Defined.

Section LoaderOutcome.
Import Config.

Variable Conf : Type.
Variable require : string -> string + Conf.

(** X7. [loadConfig] returns a configuration exactly when the selected file
    loads (it returns that one) or the selected file fails and
    [development.js] loads (it returns that one); in every other case the
    error of [development.js] leaves [loadConfig]. *)
Theorem loadConfig_outcome (NODE_ENV : option string) (config : Conf) :
  let configFile := fst (selectConfig (envOf NODE_ENV)) in
  snd (loadConfig Conf require NODE_ENV) = inr config <->
  require configFile = inr config \/
  ((exists message, require configFile = inl message) /\
   require "./development.js" = inr config).
Proof.
  intros configFile. unfold loadConfig, configFile.
  destruct (selectConfig (envOf NODE_ENV)) as [file name]. cbn [fst snd].
  destruct (require file) as [message | c] eqn:E; cbn [snd].
  - split.
    + intros H. right. split; [now exists message | exact H].
    + intros [H | [_ H]]; [discriminate | exact H].
  - split.
    + intros H. now left.
    + intros [H | [[m Hm] _]]; [exact H | discriminate].
Qed.

(** X8. When the environment selects [development.js] itself (no [NODE_ENV],
    an empty one, [development] in any letter case, or a name that is none of
    production, staging and test) and that file does not load, the fallback
    loads the same file again: the error leaves [loadConfig] after the
    fallback has been announced. *)
Theorem development_failure_is_fatal
    (NODE_ENV : option string) (message : string) :
  let e := JS.toLowerCase (envOf NODE_ENV) in
  e <> "production" -> e <> "staging" -> e <> "test" ->
  require "./development.js" = inl message ->
  loadConfig Conf require NODE_ENV =
    ([LoadingFor (envOf NODE_ENV); Using "development";
      ErrorLoading "./development.js"; ErrorMessage message; FallingBack],
     inl message).
Proof.
  intros e H1 H2 H3 Hfail. unfold loadConfig.
  destruct (selectConfig_cases (envOf NODE_ENV))
    as [[E _] | [[E _] | [[E _] | (_ & _ & _ & ->)]]];
    try (fold e in E; contradiction).
  now rewrite Hfail.
Qed.

End LoaderOutcome.

Lemma loadConfig_outcome_witness :
  snd (Config.loadConfig _ Sample.require (Some "staging"))
  = inr Sample.development.
Proof.
  apply (loadConfig_outcome _ Sample.require (Some "staging") Sample.development).
  right. split; [eexists|]; reflexivity.
Defined.

Lemma development_failure_is_fatal_witness :
  Config.loadConfig _ Scenario.brokenRequire (Some "qa") =
    ([Config.LoadingFor "qa"; Config.Using "development";
      Config.ErrorLoading "./development.js";
      Config.ErrorMessage "SyntaxError in ./development.js";
      Config.FallingBack],
     inl "SyntaxError in ./development.js").
Proof.
  apply (development_failure_is_fatal _ Scenario.brokenRequire (Some "qa")
           "SyntaxError in ./development.js");
    try discriminate.
  reflexivity.
Defined.

(** ** The transports that [createLogger] builds *)

Section LoggerConstruction.
Import Obj Log Winston Logger.
Context {J : Json}.

(** The two shapes of the transport list, with the condition under which
    each arises. *)
Lemma transports_cases (logging : option LoggingConfig) (env : ProcessEnv) :
  let lg := createLogger logging env in
  let dir := logDirOf logging env in
  let c := logConfigOf logging in
  let enabled :=
    NODE_ENV env <> Some "production" \/ ENABLE_CONSOLE_LOGS env = Some "true" in
  (~ enabled /\
   transports lg = [combinedTransport dir c; errorTransport dir c]) \/
  (enabled /\
   transports lg = [Console (consoleFormat c) (Some (cfg_level c));
                    combinedTransport dir c; errorTransport dir c]).
Proof.
  intros lg dir c enabled. unfold lg, createLogger. cbn [transports].
  fold dir. fold c.
  assert (Hdev : (match NODE_ENV env with
                  | Some e => negb (String.eqb e "production")
                  | None => true
                  end = true) <-> NODE_ENV env <> Some "production").
  { destruct (NODE_ENV env) as [e|]; [|split; [discriminate | reflexivity]].
    rewrite negb_true_iff. split.
    - intros H [= ->]. discriminate.
    - intros H. apply String.eqb_neq. congruence. }
  assert (Hforce : (match ENABLE_CONSOLE_LOGS env with
                    | Some e => String.eqb e "true"
                    | None => false
                    end = true) <-> ENABLE_CONSOLE_LOGS env = Some "true").
  { destruct (ENABLE_CONSOLE_LOGS env) as [e|]; [|split; discriminate].
    rewrite String.eqb_eq. split; congruence. }
  unfold enabled. rewrite <- Hdev, <- Hforce, <- orb_true_iff.
  destruct (_ || _); cbn [app].
  - right. split; reflexivity.
  - left. split; [discriminate | reflexivity].
Qed.

(** X9. The console transport exists exactly when [NODE_ENV] is not the
    string [production] or [ENABLE_CONSOLE_LOGS] is the string [true]; the
    combined and the error file transports exist in every environment, in
    that order after the console. *)
Theorem console_transport_iff
    (logging : option LoggingConfig) (env : ProcessEnv) :
  let lg := createLogger logging env in
  let dir := logDirOf logging env in
  let c := logConfigOf logging in
  ((exists fmt lvl, In (Console fmt lvl) (transports lg)) <->
   NODE_ENV env <> Some "production" \/ ENABLE_CONSOLE_LOGS env = Some "true") /\
  (transports lg = [combinedTransport dir c; errorTransport dir c] \/
   transports lg = [Console (consoleFormat c) (Some (cfg_level c));
                    combinedTransport dir c; errorTransport dir c]).
Proof.
  intros lg dir c.
  destruct (transports_cases logging env) as [[Hoff Ht] | [Hon Ht]];
    fold lg in Ht; rewrite Ht; split.
  - split; [|intros H; contradiction].
    intros (fmt & lvl & [H | [H | []]]); discriminate.
  - now left.
  - split; [intros _; exact Hon|]. intros _. do 2 eexists. now left.
  - now right.
Qed.

(** X10. The four files of the logger have four different names, all directly
    inside the log directory, so no two destinations ever write to the same
    file. *)
Theorem log_files_are_distinct
    (logging : option LoggingConfig) (env : ProcessEnv) :
  let dir := logDirOf logging env in
  let c := logConfigOf logging in
  let files := map fileOf [combinedTransport dir c; errorTransport dir c;
                           exceptionsTransport dir c; rejectionsTransport dir c] in
  NoDup files /\ Forall (fun f => exists name, f = dir ++ "/" ++ name) files.
Proof.
  intros dir c files. split.
  - assert (Hne : forall a b, String.eqb a b = false ->
                              path_join dir a <> path_join dir b).
    { intros a b E H. apply String.eqb_eq in H.
      rewrite path_join_eqb in H. congruence. }
    unfold files. cbn [map fileOf combinedTransport errorTransport
                       exceptionsTransport rejectionsTransport rotatingFile
                       transportFile].
    repeat constructor; simpl; intuition;
      match goal with H : path_join _ _ = path_join _ _ |- _ =>
        revert H; apply Hne; reflexivity end.
  - unfold files. repeat constructor; eexists; reflexivity.
Qed.

End LoggerConstruction.

(** ** Where records of each level end up *)

Section LevelRouting.
Import Obj Log Winston Logger.
Context {J : Json}.

Lemma levelOfName_nonneg (name : string) (n : Z) :
  levelOfName name = Some n -> 0 <= n.
Proof.
  unfold levelOfName. destruct (find _ allLevels) as [l|]; [|discriminate].
  intros [= <-]. destruct l; simpl; lia.
Qed.

Lemma accepts_with_level (lg : Logger) (t : Transport) (name : string)
    (n : Z) (i : Info) :
  transportLevel t = Some name -> levelOfName name = Some n ->
  accepts lg t i = (levels (LEVEL i) <=? n).
Proof.
  intros Ht Hn. apply accepts_known. unfold minimumLevel. rewrite Ht.
  destruct (String.eqb name "") eqn:E; [|exact Hn].
  apply String.eqb_eq in E. subst name. discriminate.
Qed.

Lemma logRecord_below_level
    (logging : option LoggingConfig) (env : ProcessEnv) (ctx : Ctx)
    (i : Info) (n : Z) :
  let lg := createLogger logging env in
  levelOfName (cfg_level (logConfigOf logging)) = Some n ->
  n < levels (LEVEL i) ->
  logRecord lg ctx i = [].
Proof.
  intros lg Hn Hlt.
  pose proof (levelOfName_nonneg _ _ Hn) as Hpos.
  destruct (transports_cases logging env) as [[_ Ht] | [_ Ht]];
    unfold logRecord, lg; rewrite Ht; cbn [flat_map];
    rewrite ?(accepts_with_level _ (Console _ _) _ n i eq_refl Hn);
    rewrite (accepts_with_level _ (combinedTransport _ _) _ n i eq_refl Hn);
    rewrite (accepts_with_level _ (errorTransport _ _) "error" 0 i eq_refl eq_refl);
    (replace (levels (LEVEL i) <=? n) with false
       by (symmetry; apply Z.leb_gt; lia));
    (replace (levels (LEVEL i) <=? 0) with false
       by (symmetry; apply Z.leb_gt; lia));
    reflexivity.
Qed.

(** X11. A record whose severity lies strictly below the configured level is
    written nowhere at all: not to the console, not to the combined file, not
    to the error file. So with [error], [warn] or [info] configured no
    access-log record (level [http]) is ever written. *)
Theorem below_level_written_nowhere
    (logging : option LoggingConfig) (env : ProcessEnv) (ctx : Ctx)
    (i : Info) (n : Z) :
  let lg := createLogger logging env in
  levelOfName (cfg_level (logConfigOf logging)) = Some n ->
  n < levels (LEVEL i) ->
  logRecord lg ctx i = [] /\
  forall file, linesOf file (logRecord lg ctx i) = [].
Proof.
  intros lg Hn Hlt. unfold lg.
  rewrite (logRecord_below_level logging env ctx i n Hn Hlt).
  split; reflexivity.
Qed.

(** X12. With any level of the table configured, a record of level [error] is
    written twice with the same text: once to the combined file and once to
    the error file. *)
Theorem error_records_reach_both_files
    (logging : option LoggingConfig) (env : ProcessEnv) (ctx : Ctx)
    (i : Info) (n : Z) :
  let lg := createLogger logging env in
  let dir := logDirOf logging env in
  let c := logConfigOf logging in
  levelOfName (cfg_level c) = Some n ->
  LEVEL i = error ->
  linesOf (fileOf (combinedTransport dir c)) (logRecord lg ctx i)
    = [fileLine ctx i] /\
  linesOf (fileOf (errorTransport dir c)) (logRecord lg ctx i)
    = [fileLine ctx i].
Proof.
  intros lg dir c Hn Hi.
  pose proof (linesOf_logRecord logging env ctx i) as Hlines.
  pose proof (levelOfName_nonneg _ _ Hn) as Hpos.
  subst lg dir c. cbv zeta in Hlines.
  assert (Hc : accepts (createLogger logging env)
                 (combinedTransport (logDirOf logging env) (logConfigOf logging)) i
               = true).
  { rewrite (accepts_with_level _ (combinedTransport _ _) _ n i eq_refl Hn), Hi.
    apply Z.leb_le. exact Hpos. }
  assert (He : accepts (createLogger logging env)
                 (errorTransport (logDirOf logging env) (logConfigOf logging)) i
               = true).
  { now rewrite (accepts_with_level _ (errorTransport _ _) "error" 0 i
                   eq_refl eq_refl), Hi. }
  split.
  - unfold combinedTransport at 1, fileOf, rotatingFile at 1.
    cbn [transportFile]. rewrite Hlines, Hc, He. reflexivity.
  - unfold errorTransport at 1, fileOf, rotatingFile at 1.
    cbn [transportFile]. rewrite Hlines, Hc, He. reflexivity.
Qed.

(** With a level name that is not empty and not in the level table, the
    console and the combined transport take no record. *)
Lemma logRecord_unknown_level
    (logging : option LoggingConfig) (env : ProcessEnv) (ctx : Ctx) (i : Info) :
  let lg := createLogger logging env in
  let dir := logDirOf logging env in
  let c := logConfigOf logging in
  cfg_level c <> "" ->
  levelOfName (cfg_level c) = None ->
  forall w, In w (logRecord lg ctx i) ->
    target w = Some (fileOf (errorTransport dir c)) /\ LEVEL i = error.
Proof.
  intros lg dir c Hne Hn w Hw.
  apply String.eqb_neq in Hne.
  assert (Hoff : forall t, transportLevel t = Some (cfg_level c) ->
                           accepts lg t i = false).
  { intros t Ht. unfold accepts, minimumLevel. rewrite Ht, Hne.
    cbv beta iota zeta. now rewrite Hne, Hn. }
  destruct (transports_cases logging env) as [[_ Ht] | [_ Ht]];
    unfold logRecord in Hw; fold lg in Ht; rewrite Ht in Hw;
    cbn [flat_map] in Hw;
    rewrite ?(Hoff (Console _ _) eq_refl) in Hw;
    rewrite (Hoff (combinedTransport _ _) eq_refl) in Hw;
    cbn [app] in Hw; rewrite app_nil_r in Hw;
    (destruct (accepts lg (errorTransport _ _) i) eqn:E; [|contradiction]);
    apply accepts_error_level in E;
    (destruct Hw as [<- | []]); (split; [reflexivity | exact E]).
Qed.

End LevelRouting.

Lemma below_level_written_nowhere_witness :
  Winston.logRecord
    (Logger.createLogger (J := MiniJson.runtime) (Some Sample.production) Sample.env)
    Sample.ctx Scenario.accessInfo = [].
Proof.
  apply (below_level_written_nowhere (J := MiniJson.runtime)
           (Some Sample.production) Sample.env Sample.ctx Scenario.accessInfo 0);
    [reflexivity | simpl; lia].
Defined.

Lemma error_records_reach_both_files_witness :
  Winston.linesOf "/srv/app/logs/application-%DATE%.log"
    (Winston.logRecord
       (Logger.createLogger (J := MiniJson.runtime) (Some Sample.development)
          Sample.env)
       Sample.ctx Scenario.failureInfo)
  = [Logger.fileLine (J := MiniJson.runtime) Sample.ctx Scenario.failureInfo].
Proof.
  apply (error_records_reach_both_files (J := MiniJson.runtime)
           (Some Sample.development) Sample.env Sample.ctx
           Scenario.failureInfo 5); reflexivity.
Defined.

(** ** The configuration files *)

Section ConfigValues.
Import ConfigFiles.

Ltac eval_digit :=
  repeat match goal with
  | |- context [isDigit ?c] =>
      let b := eval vm_compute in (isDigit c) in change (isDigit c) with b
  | |- context [(nat_of_ascii ?c - 48)%nat] =>
      let k := eval vm_compute in (nat_of_ascii c - 48)%nat in
      change (nat_of_ascii c - 48)%nat with k
  | |- context [JS.isWhiteSpace ?c] =>
      let b := eval vm_compute in (JS.isWhiteSpace c) in
      change (JS.isWhiteSpace c) with b
  end; cbn iota.

Lemma digits_of_uint (d : Decimal.uint) (acc : nat) (rest : string) :
  digits acc true (NilEmpty.string_of_uint d ++ rest)
  = digits (Nat.of_uint_acc d acc) true rest.
Proof.
  revert acc. induction d as [|d IH|d IH|d IH|d IH|d IH|d IH|d IH|d IH|d IH|d IH];
    intros acc; cbn [NilEmpty.string_of_uint append]; [reflexivity|..];
    cbn [digits]; eval_digit; rewrite IH; cbn [Nat.of_uint_acc];
    rewrite Nat.tail_mul_spec; do 2 f_equal; lia.
Qed.

(** [parseInt] reads back the decimal text of a natural number, and ignores
    whatever follows the digits. *)
Lemma parseInt_decimal (n : nat) (rest : string) :
  (forall c r, rest = String c r -> isDigit c = false) ->
  parseInt (Winston.ofNat n ++ rest) = ofInteger (Z.of_nat n).
Proof.
  intros Hrest.
  assert (Hstop : forall acc, digits acc true rest = Some acc).
  { intros acc. destruct rest as [|c r]; [reflexivity|].
    simpl. now rewrite (Hrest c r eq_refl). }
  unfold Winston.ofNat, NilZero.string_of_uint.
  pose proof (Unsigned.of_to n) as Hn. unfold Nat.of_uint in Hn.
  destruct (Nat.to_uint n) as [|d|d|d|d|d|d|d|d|d|d] eqn:E;
    [simpl in Hn; subst n; unfold parseInt; simpl; now rewrite Hstop|..];
    unfold parseInt; cbn [NilEmpty.string_of_uint append JS.trimStart];
    eval_digit; cbn [digits]; eval_digit;
    rewrite digits_of_uint, Hstop; do 2 f_equal;
    rewrite <- Hn; cbn [Nat.of_uint_acc];
    rewrite Nat.tail_mul_spec; do 1 f_equal; lia.
Qed.

Lemma ofNat_nonempty (n : nat) (rest : string) :
  String.eqb (Winston.ofNat n ++ rest) "" = false.
Proof.
  unfold Winston.ofNat, NilZero.string_of_uint.
  destruct (Nat.to_uint n); reflexivity.
Qed.

(** X13. A [PORT] that starts with the decimal digits of a number up to
    2^53: [production.js] parses it and takes the number the digits spell,
    ignoring anything after them, while [development.js] does not parse it
    and carries the text itself as [server.port]. *)
Theorem port_from_environment (e : Env) (n : nat) (rest : string) :
  e "PORT" = Some (Winston.ofNat n ++ rest) ->
  (forall c r, rest = String c r -> isDigit c = false) ->
  Z.of_nat n <= 9007199254740992 ->
  port (server (production_js e)) = PortNumber (Num (Z.of_nat n)) /\
  port (server (development_js e)) = PortText (Winston.ofNat n ++ rest).
Proof.
  intros Hport Hrest Hexact. unfold production_js, development_js.
  cbn [server port]. rewrite Hport. unfold orDefault.
  rewrite ofNat_nonempty. rewrite parseInt_decimal by exact Hrest.
  unfold ofInteger.
  replace (Z.abs (Z.of_nat n) <=? 9007199254740992) with true
    by (symmetry; apply Z.leb_le; lia).
  split; reflexivity.
Qed.

(** X14. A [PORT] that does not start with a digit, a sign or white space is
    not rejected when the configuration is loaded: [production.js] gives
    [NaN] as the port and [development.js] gives the text. *)
Theorem invalid_port_is_not_rejected (e : Env) (c : ascii) (rest : string) :
  e "PORT" = Some (String c rest) ->
  JS.isWhiteSpace c = false -> isDigit c = false ->
  c <> "-"%char -> c <> "+"%char ->
  port (server (production_js e)) = PortNumber NaN /\
  port (server (development_js e)) = PortText (String c rest).
Proof.
  intros Hport Hws Hdigit Hminus Hplus.
  unfold production_js, development_js. cbn [server port]. rewrite Hport.
  split; [|reflexivity]. unfold orDefault. cbn [String.eqb].
  unfold parseInt. cbn [JS.trimStart]. rewrite Hws.
  assert (Hnone : digits 0 false (String c rest) = None)
    by (cbn [digits]; now rewrite Hdigit).
  destruct c as [[] [] [] [] [] [] [] []];
    try (exfalso; apply Hminus; reflexivity);
    try (exfalso; apply Hplus; reflexivity);
    now rewrite Hnone.
Qed.

End ConfigValues.

Lemma port_from_environment_witness :
  ConfigFiles.port (ConfigFiles.server (ConfigFiles.production_js Scenario.portEnv))
  = ConfigFiles.PortNumber (ConfigFiles.Num 4443) /\
  ConfigFiles.port (ConfigFiles.server (ConfigFiles.development_js Scenario.portEnv))
  = ConfigFiles.PortText "4443".
Proof.
  apply (port_from_environment Scenario.portEnv 4443 "").
  - reflexivity.
  - discriminate.
  - simpl. lia.
Defined.

Lemma invalid_port_is_not_rejected_witness :
  ConfigFiles.port (ConfigFiles.server (ConfigFiles.production_js Scenario.badPortEnv))
  = ConfigFiles.PortNumber ConfigFiles.NaN /\
  ConfigFiles.port (ConfigFiles.server (ConfigFiles.development_js Scenario.badPortEnv))
  = ConfigFiles.PortText "abc".
Proof.
  apply (invalid_port_is_not_rejected Scenario.badPortEnv "a" "bc");
    try reflexivity; discriminate.
Defined.

(** ** From the environment to the logger *)

Section FromEnvironment.
Import Obj Log Winston Logger Config ConfigFiles.
Context {J : Json}.

(** X15. Over the configuration files of the repository [loadConfig] always
    returns a configuration, whatever [NODE_ENV] holds and whether or not a
    [staging.js] exists or loads: the configuration is that of the selected
    file or, after a failed [staging.js], that of [development.js]. *)
Theorem repository_configuration_always_loads
    (e : Env) (staging : string + AppConfig) :
  exists config,
    snd (loadConfig AppConfig (requireConfig e staging) (e "NODE_ENV"))
      = inr config /\
    (config = production_js e \/ config = test_js \/
     config = development_js e \/ staging = inr config).
Proof.
  unfold loadConfig.
  destruct (selectConfig_cases (envOf (e "NODE_ENV")))
    as [[_ ->] | [[_ ->] | [[_ ->] | (_ & _ & _ & ->)]]]; cbn.
  - eexists. split; [reflexivity | now left].
  - destruct staging as [m | c]; cbn.
    + eexists. split; [reflexivity | now right; right; left].
    + eexists. split; [reflexivity | now right; right; right].
  - eexists. split; [reflexivity | now right; left].
  - eexists. split; [reflexivity | now right; right; left].
Qed.

(** X16. A process started with [NODE_ENV=production] and no [LOG_LEVEL] gets
    a logger of level [error]: every record of another level, the access-log
    records of the HTTP logger among them, is written nowhere. *)
Theorem production_defaults_write_errors_only
    (e : Env) (staging : string + AppConfig) (dir : string) :
  e "NODE_ENV" = Some "production" ->
  e "LOG_LEVEL" = None ->
  exists lg,
    startLogger e staging dir = Some lg /\
    level lg = "error" /\
    forall ctx i, LEVEL i <> error -> logRecord lg ctx i = [].
Proof.
  intros Henv Hlevel. unfold startLogger. rewrite Henv. cbn.
  eexists. split; [reflexivity|]. split.
  - cbn. now rewrite Hlevel.
  - intros ctx i Hi.
    apply (logRecord_below_level _ _ ctx i 0).
    + cbn. now rewrite Hlevel.
    + destruct (LEVEL i); simpl; try lia. contradiction.
Qed.

(** X17. A process started with [NODE_ENV=test] gets the level [silent], which
    is no level of the table: its console and its combined file stay empty,
    and only the error file can receive a record. *)
Theorem test_environment_is_silent
    (e : Env) (staging : string + AppConfig) (dir : string) :
  e "NODE_ENV" = Some "test" ->
  exists lg,
    startLogger e staging dir = Some lg /\
    level lg = "silent" /\
    forall ctx i w, In w (logRecord lg ctx i) ->
      target w = Some (path_join (path_resolve dir "logs") "error-%DATE%.log")
      /\ LEVEL i = error.
Proof.
  intros Henv. unfold startLogger. rewrite Henv. cbn.
  eexists. split; [reflexivity|]. split; [reflexivity|].
  intros ctx i w Hw.
  apply (logRecord_unknown_level
           (Some (logging test_js))
           (mkProcessEnv (Some "test") (e "ENABLE_CONSOLE_LOGS") dir)
           ctx i ltac:(discriminate) eq_refl w Hw).
Qed.

Lemma selectedFormat_eqb (name : string) :
  AccessTokens.selectedFormat (Some name)
  = if String.eqb name "production" then HttpLogger.prodFormat
    else HttpLogger.devFormat.
Proof.
  unfold AccessTokens.selectedFormat.
  repeat (destruct name as [|[[] [] [] [] [] [] [] []] name]; try reflexivity).
Qed.

Lemma toLowerCase_nonempty (name : string) :
  JS.toLowerCase name = "production" -> String.eqb name "" = false.
Proof. destruct name; [discriminate | reflexivity]. Qed.

(** X18. The configuration loader compares [NODE_ENV] without regard to letter
    case, the logger and the HTTP logger compare it exactly. For a
    [NODE_ENV] that spells production with a capital letter somewhere, the
    production configuration is loaded, yet the console transport is
    switched on and the access log uses the development format. *)
Theorem environment_name_case_mismatch
    (e : Env) (staging : string + AppConfig) (dir name : string) :
  e "NODE_ENV" = Some name ->
  JS.toLowerCase name = "production" -> name <> "production" ->
  snd (loadConfig AppConfig (requireConfig e staging) (e "NODE_ENV"))
    = inr (production_js e) /\
  AccessTokens.selectedFormat (Some name) = HttpLogger.devFormat /\
  exists lg,
    startLogger e staging dir = Some lg /\
    exists fmt lvl, In (Console fmt lvl) (transports lg).
Proof.
  intros Henv Hlower Hexact.
  assert (Hload : snd (loadConfig AppConfig (requireConfig e staging)
                         (e "NODE_ENV")) = inr (production_js e)).
  { rewrite Henv. unfold loadConfig, envOf.
    rewrite (toLowerCase_nonempty name Hlower).
    unfold selectConfig. rewrite Hlower. reflexivity. }
  split; [exact Hload|]. split.
  - rewrite selectedFormat_eqb.
    apply String.eqb_neq in Hexact. now rewrite Hexact.
  - unfold startLogger. rewrite Hload. eexists. split; [reflexivity|].
    destruct (transports_cases (Some (logging (production_js e)))
                (mkProcessEnv (e "NODE_ENV") (e "ENABLE_CONSOLE_LOGS") dir))
      as [[Hoff _] | [_ Ht]].
    + exfalso. apply Hoff. left. cbn [NODE_ENV]. rewrite Henv. congruence.
    + rewrite Ht. do 2 eexists. now left.
Qed.

End FromEnvironment.

Lemma production_defaults_write_errors_only_witness :
  exists lg,
    ConfigFiles.startLogger (J := MiniJson.runtime) Scenario.productionEnv
      (inl "Cannot find module ./staging.js") "/srv/app" = Some lg /\
    Winston.logRecord lg Sample.ctx Scenario.accessInfo = [].
Proof.
  destruct (production_defaults_write_errors_only (J := MiniJson.runtime)
              Scenario.productionEnv (inl "Cannot find module ./staging.js")
              "/srv/app" eq_refl eq_refl) as (lg & Hlg & _ & Hdrop).
  exists lg. split; [exact Hlg|]. apply Hdrop. discriminate.
Defined.

Lemma test_environment_is_silent_witness :
  exists lg,
    ConfigFiles.startLogger (J := MiniJson.runtime) Scenario.testEnv
      (inl "Cannot find module ./staging.js") "/srv/app" = Some lg /\
    Winston.level lg = "silent".
Proof.
  destruct (test_environment_is_silent (J := MiniJson.runtime)
              Scenario.testEnv (inl "Cannot find module ./staging.js")
              "/srv/app" eq_refl) as (lg & Hlg & Hlevel & _).
  exists lg. split; assumption.
Defined.

Lemma environment_name_case_mismatch_witness :
  AccessTokens.selectedFormat (J := MiniJson.runtime) (Some "Production")
  = HttpLogger.devFormat.
Proof.
  apply (environment_name_case_mismatch (J := MiniJson.runtime)
           (fun k => if String.eqb k "NODE_ENV" then Some "Production" else None)
           (inl "Cannot find module ./staging.js") "/srv/app" "Production");
    [reflexivity | reflexivity | discriminate].
Defined.

(** ** The process hooks *)

Section ProcessHooks.
Import Obj Log World Index.

Lemma run_exited (evs : list event) (p : process) (code : Z) :
  exited p = Some code -> run p evs = p.
Proof.
  intros He. induction evs as [|ev evs IH]; [reflexivity|].
  unfold run in *. cbn [fold_left]. unfold step at 2. now rewrite He.
Qed.

(** X19. Unhandled rejections never end the process: over any sequence of
    rejections and passing time, started with no timer pending, the process
    stays alive, sets no timer, and logs exactly one error record
    "Unhandled Rejection" per rejection and nothing else. *)
Theorem rejections_never_terminate (evs : list event) (p : process) :
  exited p = None -> timers p = [] ->
  forallb (fun ev => isRejection ev || isElapse ev) evs = true ->
  exited (run p evs) = None /\ timers (run p evs) = [] /\
  exists records,
    emitted (pworld (run p evs)) = (emitted (pworld p) ++ records)%list /\
    length records = length (filter isRejection evs) /\
    Forall (fun c => lc_level c = error /\ lc_message c = "Unhandled Rejection")
           records.
Proof.
  revert p. induction evs as [|ev evs IH]; intros p Halive Htimers Hall.
  - repeat split; try assumption. exists []. rewrite app_nil_r.
    repeat split. constructor.
  - cbn [forallb] in Hall. apply andb_true_iff in Hall. destruct Hall as [Hev Hall].
    unfold run. cbn [fold_left]. fold (run (step p ev) evs).
    destruct ev as [err | reason | | | ms]; try discriminate.
    + assert (Hstep : step p (UnhandledRejection reason)
                      = onUnhandledRejection reason p)
        by (unfold step; now rewrite Halive).
      rewrite Hstep.
      destruct (IH (onUnhandledRejection reason p) Halive Htimers Hall)
        as (He & Ht & rs & Hrs & Hlen & Hfor).
      repeat split; try assumption.
      eexists (_ :: rs). rewrite Hrs. cbn [onUnhandledRejection logInto pworld
                                           emit emitted].
      rewrite <- app_assoc. split; [reflexivity|].
      split; [cbn; now rewrite Hlen|].
      constructor; [split; reflexivity | exact Hfor].
    + assert (Hstep : step p (Elapse ms)
                      = mkProcess (setClock (clock (pworld p) + Z.max 0 ms) (pworld p))
                                  [] None).
      { unfold step. rewrite Halive. unfold elapse. rewrite Htimers, Halive.
        reflexivity. }
      rewrite Hstep.
      destruct (IH (mkProcess (setClock (clock (pworld p) + Z.max 0 ms) (pworld p))
                              [] None) eq_refl eq_refl Hall)
        as (He & Ht & rs & Hrs & Hlen & Hfor).
      repeat split; try assumption.
      exists rs. rewrite Hrs. repeat split; assumption.
Qed.

Lemma rejections_never_terminate_witness :
  exited (run (started (VStr "ok") (Sample.world "/" 200))
              [UnhandledRejection VNull; Elapse 5000;
               UnhandledRejection (VStr "timeout")]) = None.
Proof.
  apply (rejections_never_terminate
           [UnhandledRejection VNull; Elapse 5000;
            UnhandledRejection (VStr "timeout")]
           (started (VStr "ok") (Sample.world "/" 200)));
    reflexivity.
Defined.

Lemma step_exit_codes (p : process) (ev : event) :
  Forall (fun timer => snd timer = 1) (timers p) ->
  Forall (fun timer => snd timer = 1) (timers (step p ev)) /\
  (exited (step p ev) = exited p \/
   (exited p = None /\ exited (step p ev) = Some 0 /\ isSignal ev = true) \/
   (exited p = None /\ exited (step p ev) = Some 1 /\ isElapse ev = true /\
    timers p <> [])) /\
  (timers (step p ev) = timers p \/ isException ev = true).
Proof.
  intros Hcodes. unfold step.
  destruct (exited p) as [code|] eqn:Halive.
  - rewrite Halive. split; [exact Hcodes|]. split; now left.
  - destruct ev as [err | reason | | | ms]; cbn.
    + split; [|split; [now left | now right]].
      apply Forall_app. split; [exact Hcodes | repeat constructor].
    + split; [exact Hcodes|]. split; now left.
    + split; [exact Hcodes|]. split; [|now left].
      right. left. repeat split.
    + split; [exact Hcodes|]. split; [|now left].
      right. left. repeat split.
    + unfold elapse.
      destruct (find _ (timers p)) as [timer|] eqn:F; cbn.
      * split; [exact Hcodes|]. split; [|now left].
        right. right.
        apply find_some in F. destruct F as [Hin _].
        rewrite Forall_forall in Hcodes. rewrite (Hcodes timer Hin).
        repeat split. intros E. rewrite E in Hin. contradiction.
      * split; [exact Hcodes|]. split; now left.
Qed.

(** A process whose timers all carry the code 1 exits with 1 only when time
    passes with a timer pending: a timer that was pending from the start, or
    one that an uncaught exception set earlier in the run. *)
Lemma exit_one_cause (evs : list event) (p0 : process) :
  Forall (fun timer => snd timer = 1) (timers p0) ->
  exited p0 = None ->
  exited (run p0 evs) = Some 1 ->
  (timers p0 <> [] /\
   exists pre ms post, evs = (pre ++ Elapse ms :: post)%list) \/
  (exists pre err mid ms post,
     evs = (pre ++ UncaughtException err :: mid ++ Elapse ms :: post)%list).
Proof.
  revert p0. induction evs as [|ev evs IH]; intros p0 Hcodes Halive Hexit.
  - cbn in Hexit. congruence.
  - unfold run in Hexit. cbn [fold_left] in Hexit.
    fold (run (step p0 ev) evs) in Hexit.
    destruct (step_exit_codes p0 ev Hcodes) as (Hcodes' & Hstep & Htimers).
    destruct Hstep as [Hsame | [(_ & H0 & _) | (_ & _ & Hel & Hne)]].
    + rewrite Halive in Hsame.
      destruct (IH (step p0 ev) Hcodes' Hsame Hexit)
        as [(Hne & pre & ms & post & ->)
           | (pre & err & mid & ms & post & ->)].
      * destruct Htimers as [Heq | Hisex].
        { left. split; [now rewrite <- Heq|].
          exists (ev :: pre), ms, post. reflexivity. }
        { right. destruct ev as [err | | | |]; try discriminate.
          exists [], err, pre, ms, post. reflexivity. }
      * right. exists (ev :: pre), err, mid, ms, post. reflexivity.
    + rewrite (run_exited evs _ 0 H0) in Hexit. congruence.
    + left. split; [exact Hne|].
      destruct ev as [| | | |ms]; try discriminate.
      exists [], ms, evs. reflexivity.
Qed.

(** X20. The process only ever exits with code 0 or 1: with 0 only when a
    SIGTERM or SIGINT is among the events, and with 1 only when an uncaught
    exception is followed, later in the run, by passing time; rejections and
    passing time alone never make it exit. *)
Theorem exit_codes_and_their_causes
    (testUtil : value) (w : world) (evs : list event) :
  let p := run (started testUtil w) evs in
  (forall code, exited p = Some code -> code = 0 \/ code = 1) /\
  (exited p = Some 0 -> existsb isSignal evs = true) /\
  (exited p = Some 1 ->
   exists pre err mid ms post,
     evs = (pre ++ UncaughtException err :: mid ++ Elapse ms :: post)%list) /\
  (forallb (fun ev => isRejection ev || isElapse ev) evs = true ->
   exited p = None).
Proof.
  assert (Hgen : forall evs p0,
             Forall (fun timer => snd timer = 1) (timers p0) ->
             exited p0 = None ->
             let p := run p0 evs in
             (exited p = None \/
              (exited p = Some 0 /\ existsb isSignal evs = true) \/
              (exited p = Some 1 /\ existsb isElapse evs = true /\
               (timers p0 <> [] \/ existsb isException evs = true)))).
  { intros evs0. induction evs0 as [|ev evs0 IH]; intros p0 Hcodes Halive p.
    - left. exact Halive.
    - unfold p, run. cbn [fold_left]. fold (run (step p0 ev) evs0).
      destruct (step_exit_codes p0 ev Hcodes) as (Hcodes' & Hexit & Htimers).
      destruct Hexit as [Hsame | [(_ & H0 & Hsig) | (_ & H1 & Hel & Hne)]].
      + rewrite Halive in Hsame.
        destruct (IH (step p0 ev) Hcodes' Hsame)
          as [Hn | [(H0 & Hs) | (H1 & Hel & Hcause)]].
        * now left.
        * right. left. split; [exact H0|]. cbn. rewrite Hs. apply orb_true_r.
        * right. right. split; [exact H1|]. split.
          { cbn. rewrite Hel. apply orb_true_r. }
          destruct Hcause as [Hne | Hex].
          { destruct Htimers as [Heq | Hisex].
            - left. now rewrite <- Heq.
            - right. cbn. now rewrite Hisex. }
          { right. cbn. rewrite Hex. apply orb_true_r. }
      + rewrite (run_exited evs0 _ 0 H0). right. left.
        split; [exact H0|]. cbn. now rewrite Hsig.
      + rewrite (run_exited evs0 _ 1 H1). right. right.
        split; [exact H1|]. split; [cbn; now rewrite Hel|]. now left. }
  assert (Hordered : exited (run (started testUtil w) evs) = Some 1 ->
            exists pre err mid ms post,
              evs = (pre ++ UncaughtException err :: mid
                         ++ Elapse ms :: post)%list).
  { intros Hexit.
    destruct (exit_one_cause evs (started testUtil w) (Forall_nil _) eq_refl
                Hexit) as [(Hne & _) | Hcause]; [|exact Hcause].
    exfalso. apply Hne. reflexivity. }
  assert (Hquiet : forall l,
            forallb (fun ev => isRejection ev || isElapse ev) l = true ->
            existsb isSignal l = false /\ existsb isException l = false).
  { induction l as [|ev l IHl]; intros Hl; [split; reflexivity|].
    cbn [forallb] in Hl. apply andb_true_iff in Hl as [Hev Hl].
    destruct (IHl Hl) as [Hs He]. cbn [existsb]. rewrite Hs, He.
    destruct ev; try discriminate; split; reflexivity. }
  intros p.
  destruct (Hgen evs (started testUtil w) (Forall_nil _) eq_refl)
    as [Hn | [(H0 & Hs) | (H1 & Hel & Hcause)]];
    fold p in Hn || fold p in H0 || fold p in H1.
  - rewrite Hn. repeat split; discriminate.
  - rewrite H0. split; [|split; [|split]]; try discriminate.
    + intros code [= <-]. now left.
    + intros _. exact Hs.
    + intros Hq. destruct (Hquiet evs Hq) as [Hno _]. congruence.
  - split; [|split; [|split]].
    + rewrite H1. intros code [= <-]. now right.
    + rewrite H1. discriminate.
    + intros _. apply Hordered. exact H1.
    + intros Hq. destruct (Hquiet evs Hq) as [_ Hno].
      destruct Hcause as [Hne | Hex]; [|congruence].
      exfalso. apply Hne. reflexivity.
Qed.

Lemma exit_codes_and_their_causes_witness :
  existsb isSignal [UnhandledRejection VNull; SIGINT; Elapse 10] = true /\
  exists pre err mid ms post,
    [UnhandledRejection VNull; UncaughtException 0%nat; Elapse 400;
     Elapse 600; SIGTERM]
    = (pre ++ UncaughtException err :: mid ++ Elapse ms :: post)%list.
Proof.
  split.
  - destruct (exit_codes_and_their_causes (VStr "ok") (Sample.world "/" 200)
                [UnhandledRejection VNull; SIGINT; Elapse 10])
      as (_ & Hsignal & _).
    apply Hsignal. reflexivity.
  - destruct (exit_codes_and_their_causes (VStr "ok") (Sample.world "/" 200)
                [UnhandledRejection VNull; UncaughtException 0%nat;
                 Elapse 400; Elapse 600; SIGTERM])
      as (_ & _ & Hone & _).
    apply Hone. reflexivity.
Defined.

(** X21. After an uncaught exception the process logs one error record and
    keeps running for one second: it is still alive after less than 1000 ms
    and has exited with code 1 once 1000 ms have passed; a SIGTERM or SIGINT
    that arrives inside that second ends it with code 0 instead. *)
Theorem uncaught_exception_grace_period
    (p : process) (err : loc) (ms : Z) :
  exited p = None -> timers p = [] ->
  exited (run p [UncaughtException err; Elapse ms])
    = (if 1000 <=? ms then Some 1 else None) /\
  (ms < 1000 ->
   exited (run p [UncaughtException err; Elapse ms; SIGTERM]) = Some 0 /\
   exited (run p [UncaughtException err; Elapse ms; SIGINT]) = Some 0) /\
  exists record,
    emitted (pworld (run p [UncaughtException err; Elapse ms]))
      = (emitted (pworld p) ++ [record])%list /\
    lc_level record = error /\ lc_message record = "Uncaught Exception".
Proof.
  intros Halive Htimers.
  assert (Hdue : (clock (pworld p) + 1000 <=? clock (pworld p) + Z.max 0 ms)
                 = (1000 <=? ms)).
  { destruct (Z.leb_spec 1000 ms); [apply Z.leb_le | apply Z.leb_gt]; lia. }
  assert (Hstate : exists q record,
             run p [UncaughtException err; Elapse ms]
               = (if 1000 <=? ms then exit 1 q else q) /\
             exited q = None /\
             emitted (pworld q) = (emitted (pworld p) ++ [record])%list /\
             lc_level record = error /\
             lc_message record = "Uncaught Exception").
  {     exists (mkProcess
              (setClock (clock (pworld p) + Z.max 0 ms)
                        (pworld (onUncaughtException err p)))
              [(clock (pworld p) + 1000, 1)] None).
    eexists. split.
    - unfold run, step. cbn [fold_left]. rewrite Halive.
      unfold elapse, onUncaughtException, exitAfter, logInto.
      cbn [pworld timers exited emit clock]. rewrite Htimers, Halive.
      cbn [app find fst snd]. rewrite Hdue.
      destruct (1000 <=? ms); reflexivity.
    - unfold onUncaughtException, exitAfter, logInto.
      cbn [pworld timers exited emit clock emitted setClock].
      repeat split. }
  destruct Hstate as (q & record & Hrun & Hq & Hem & Hlevel & Hmsg).
  split; [|split].
  - rewrite Hrun. destruct (1000 <=? ms); [reflexivity | exact Hq].
  - intros Hlt.
    assert (Hgrace : (1000 <=? ms) = false) by (apply Z.leb_gt; lia).
    rewrite Hgrace in Hrun.
    change (run p [UncaughtException err; Elapse ms; SIGTERM])
      with (step (run p [UncaughtException err; Elapse ms]) SIGTERM).
    change (run p [UncaughtException err; Elapse ms; SIGINT])
      with (step (run p [UncaughtException err; Elapse ms]) SIGINT).
    rewrite Hrun. unfold step. rewrite Hq. split; reflexivity.
  - exists record. rewrite Hrun.
    destruct (1000 <=? ms); cbn [exit pworld]; repeat split; assumption.
Qed.

Lemma uncaught_exception_grace_period_witness :
  exited (run (started (VStr "ok") (Sample.world "/" 200))
              [UncaughtException 0%nat; Elapse 999])
  = None.
Proof.
  apply (uncaught_exception_grace_period
           (started (VStr "ok") (Sample.world "/" 200)) 0%nat 999);
    reflexivity.
Defined.

End ProcessHooks.
